(** * jsonfiledb: a Go value persisted to a JSON file

    Shallow embedding of [jsonfiledb.go] (New, Load, Read, Write) together
    with the part of its environment that the code talks to: Go error
    values, the file system calls of package [os], and the encoder and
    decoder of [encoding/json].

    The reader/writer mutex only serialises the calls; the embedding is of
    one call at a time and the lock does not appear in it. *)

From stdpp Require Import gmap strings list fin_maps pretty.
From Stdlib Require Import ZArith Lia Ascii.

Open Scope string_scope.

(** ** Byte slices

    A Go [[]byte] is a sequence of 8-bit characters, as Rocq's [string] is.
    [bytes.Equal] is equality of the two sequences. *)

Abbreviation bytes := string (only parsing).

Definition bytes_Equal (a b : bytes) : bool := bool_decide (a = b).

(** ** Go errors *)

(** The [syscall.Errno] values that the calls below can return. *)
Inductive errno := ENOENT | EEXIST | EACCES | ENOSPC | EISDIR | ENOTDIR | EIO.

(** The error values of [encoding/json]. *)
Inductive json_error :=
| SyntaxError (msg : string)
| UnmarshalTypeError (value : string) (type : string)
| UnsupportedValueError (str : string).

(** An [error] is one of: a sentinel of package [os], an errno, the
    wrappers [*fs.PathError] and [*os.LinkError], a JSON error, a value made
    by [errors.New] or by [fmt.Errorf] without [%w], and a value made by
    [fmt.Errorf("<msg>%w", err)], which keeps [err] for [Unwrap]. *)
Inductive error :=
| ErrNotExist
| ErrExist
| ErrPermission
| Errno (e : errno)
| PathError (op path : string) (err : error)
| LinkError (op old new : string) (err : error)
| JSONError (e : json_error)
| ErrorString (s : string)
| WrapError (msg : string) (err : error).

#[global] Instance errno_eq_dec : EqDecision errno.
Proof. solve_decision. Defined.

#[global] Instance json_error_eq_dec : EqDecision json_error.
Proof. solve_decision. Defined.

#[global] Instance error_eq_dec : EqDecision error.
Proof. solve_decision. Defined.

(** [syscall.Errno.Is]: which sentinel an errno stands for. *)
Definition errno_Is (e : errno) (target : error) : bool :=
  match e, target with
  | ENOENT, ErrNotExist => true
  | EEXIST, ErrExist => true
  | EACCES, ErrPermission => true
  | _, _ => false
  end.

(** [errors.Is]: compare, ask the error's own [Is], then [Unwrap]. *)
Fixpoint errors_Is (err target : error) : bool :=
  bool_decide (err = target) ||
  match err with
  | Errno e => errno_Is e target
  | PathError _ _ e => errors_Is e target
  | LinkError _ _ _ e => errors_Is e target
  | WrapError _ e => errors_Is e target
  | _ => false
  end.

(** [os.IsNotExist]. It predates [errors.Is]: it looks under a
    [*PathError] or [*LinkError] only, not under a [fmt.Errorf] wrapper. *)
Definition os_underlyingError (err : error) : error :=
  match err with
  | PathError _ _ e => e
  | LinkError _ _ _ e => e
  | _ => err
  end.

Definition os_IsNotExist (err : error) : bool :=
  let e := os_underlyingError err in
  bool_decide (e = ErrNotExist) ||
  match e with Errno n => errno_Is n ErrNotExist | _ => false end.

(** A call that returns [(T, error)]. *)
Inductive result (T : Type) :=
| Ok (v : T)
| Err (e : error).
Arguments Ok {T} v.
Arguments Err {T} e.

(** ** The file system

    A tree of files and directories keyed by path, with what the calls of
    [Write] can run into: a directory without write permission, a full
    disk, a close that reports a deferred I/O error, an existing directory
    in the place of the rename target. *)

Inductive node :=
| File (content : bytes) (mtime : nat)
| Dir (writable : bool).

Record filesys := {
  nodes : gmap string node;
  clock : nat;              (* time stamp given to the next modification *)
  free_space : nat;         (* bytes left on the device *)
  seed : nat;               (* state of the random source of CreateTemp *)
  close_fault : bool        (* the next Close reports an I/O error *)
}.

(** *** Paths ([path/filepath]), for clean slash-separated paths *)

(** Splits at the last separator: the part before it, if there is one, and
    the part after it. *)
Fixpoint split_path (s : string) : option string * string :=
  match s with
  | "" => (None, "")
  | String c s' =>
      let '(d, b) := split_path s' in
      if bool_decide (c = "/"%char) then
        match d with
        | None => (Some "", b)
        | Some d' => (Some (String c d'), b)
        end
      else
        match d with
        | None => (None, String c b)
        | Some d' => (Some (String c d'), b)
        end
  end.

Definition filepath_Dir (path : string) : string :=
  match fst (split_path path) with
  | None => "."
  | Some "" => "/"
  | Some d => d
  end.

Definition filepath_Base (path : string) : string :=
  match snd (split_path path) with
  | "" => if bool_decide (path = "") then "." else "/"
  | b => b
  end.

Fixpoint ends_with_slash (s : string) : bool :=
  match s with
  | "" => false
  | String c "" => bool_decide (c = "/"%char)
  | String _ s' => ends_with_slash s'
  end.

(** [joinPath] of package [os]. *)
Definition joinPath (dir name : string) : string :=
  if ends_with_slash dir then dir ++ name else dir ++ "/" ++ name.

(** *** The calls *)

(** What [open] answers for a name that has no entry: it is the nearest
    entry above the name that decides, ENOTDIR when that is a regular
    file, ENOENT otherwise. [fuel] bounds the climb by the length of the
    name. *)
Fixpoint missing_errno (fuel : nat) (name : string) (fs : filesys) : errno :=
  match fuel with
  | O => ENOENT
  | S fuel' =>
      let dir := filepath_Dir name in
      match nodes fs !! dir with
      | Some (File _ _) => ENOTDIR
      | Some (Dir _) => ENOENT
      | None =>
          if bool_decide (dir = name) then ENOENT
          else missing_errno fuel' dir fs
      end
  end.


Definition os_ReadFile (name : string) (fs : filesys) : result bytes :=
  match nodes fs !! name with
  | None =>
      Err (PathError "open" name
             (Errno (missing_errno (S (String.length name)) name fs)))
  | Some (Dir _) => Err (PathError "read" name (Errno EISDIR))
  | Some (File c _) => Ok c
  end.

(** [OpenFile(name, O_RDWR|O_CREATE|O_EXCL, 0600)]. *)
Definition open_excl (name : string) (fs : filesys) : result filesys :=
  match nodes fs !! filepath_Dir name with
  | None => Err (PathError "open" name (Errno ENOENT))
  | Some (File _ _) => Err (PathError "open" name (Errno ENOTDIR))
  | Some (Dir false) => Err (PathError "open" name (Errno EACCES))
  | Some (Dir true) =>
      match nodes fs !! name with
      | Some _ => Err (PathError "open" name (Errno EEXIST))
      | None =>
          Ok {| nodes := <[name := File "" (clock fs)]> (nodes fs);
                clock := S (clock fs);
                free_space := free_space fs;
                seed := seed fs;
                close_fault := close_fault fs |}
      end
  end.

(** The open file that [os.CreateTemp] returns. *)
Record os_File := { Name : string }.

(** [os.IsExist], on the errors that [open_excl] returns. *)
Definition os_IsExist (err : error) : bool :=
  let e := os_underlyingError err in
  bool_decide (e = ErrExist) ||
  match e with Errno n => errno_Is n ErrExist | _ => false end.

(** The retry loop of [os.CreateTemp]: a new random name as long as the
    name drawn exists, for at most [tries] draws. *)
Fixpoint createTemp_loop (tries : nat) (prefix : string) (rnd : nat)
    (fs : filesys) : result (os_File * filesys) :=
  match tries with
  | O => Err (PathError "createtemp" (prefix ++ "*") ErrExist)
  | S tries' =>
      let name := prefix ++ pretty rnd in
      match open_excl name fs with
      | Err e =>
          if os_IsExist e then createTemp_loop tries' prefix (S rnd) fs
          else Err e
      | Ok fs' =>
          Ok ({| Name := name |},
              {| nodes := nodes fs';
                 clock := clock fs';
                 free_space := free_space fs';
                 seed := S rnd;
                 close_fault := close_fault fs' |})
      end
  end.

(** [os.CreateTemp(dir, pattern)] for a pattern without [*]: the random
    part goes at the end. *)
Definition os_CreateTemp (dir pattern : string) (fs : filesys)
    : result (os_File * filesys) :=
  createTemp_loop (100 * 100) (joinPath dir pattern) (seed fs) fs.

(** [f.Write(data)]: all of [data], or as much as fits with ENOSPC. *)
Definition File_Write (f : os_File) (data : bytes) (fs : filesys)
    : option error * filesys :=
  let fits := bool_decide (String.length data ≤ free_space fs)%nat in
  let written := if fits then data else String.substring 0 (free_space fs) data in
  (if fits then None else Some (PathError "write" (Name f) (Errno ENOSPC)),
   {| nodes := <[Name f := File written (clock fs)]> (nodes fs);
      clock := S (clock fs);
      free_space := (free_space fs - String.length written)%nat;
      seed := seed fs;
      close_fault := close_fault fs |}).

(** [f.Close()]. *)
Definition File_Close (f : os_File) (fs : filesys) : option error * filesys :=
  if close_fault fs then
    (Some (PathError "close" (Name f) (Errno EIO)),
     {| nodes := nodes fs; clock := clock fs; free_space := free_space fs;
        seed := seed fs; close_fault := false |})
  else (None, fs).

(** [os.Rename(oldpath, newpath)]: refuses a directory as the target, and
    otherwise replaces the target in one step. *)
Definition os_Rename (oldpath newpath : string) (fs : filesys)
    : result filesys :=
  match nodes fs !! newpath with
  | Some (Dir _) => Err (LinkError "rename" oldpath newpath (Errno EEXIST))
  | _ =>
      match nodes fs !! oldpath with
      | None => Err (LinkError "rename" oldpath newpath (Errno ENOENT))
      | Some n =>
          match nodes fs !! filepath_Dir newpath with
          | None => Err (LinkError "rename" oldpath newpath (Errno ENOENT))
          | Some (File _ _) =>
              Err (LinkError "rename" oldpath newpath (Errno ENOTDIR))
          | Some (Dir false) =>
              Err (LinkError "rename" oldpath newpath (Errno EACCES))
          | Some (Dir true) =>
              Ok {| nodes := <[newpath := n]> (delete oldpath (nodes fs));
                    clock := S (clock fs);
                    free_space := free_space fs;
                    seed := seed fs;
                    close_fault := close_fault fs |}
          end
      end
  end.

(** ** Go memory

    The struct a [*DB] points to is kept by value. What the struct refers
    to in turn (the backing array of a slice, the table of a map) lives in a
    heap of cells, so that two values can share a cell and a store through
    one is seen through the other. *)

Abbreviation heap cell := (gmap positive cell) (only parsing).

(** ** encoding/json for the stored type

    The type parameter [DB any] of the source comes with what the program
    uses of it: its zero value, and how [encoding/json] encodes and decodes
    it. [decode data target h] is [json.Unmarshal(data, &target)]: it
    starts from what [target] holds and may allocate. Types with a
    [MarshalJSON] or [UnmarshalJSON] method of their own are not covered:
    the errors are those of the package. *)

Class Codec (DB cell : Type) := {
  new_DB : DB;
  encode : DB → heap cell → json_error + bytes;
  decode : bytes → DB → heap cell → json_error + DB * heap cell
}.

Section JSONFileDB.
Context {DB cell : Type} `{!Codec DB cell}.

Definition json_Marshal (v : DB) (h : heap cell) : result bytes :=
  match encode v h with
  | inl e => Err (JSONError e)
  | inr b => Ok b
  end.

Definition json_Unmarshal (data : bytes) (target : DB) (h : heap cell)
    : result (DB * heap cell) :=
  match decode data target h with
  | inl e => Err (JSONError e)
  | inr r => Ok r
  end.

(** [JSONFileDB[DB]]: the path, the bytes last committed and the value
    they decode to. *)
Record JSONFileDB := {
  path : string;
  data : bytes;
  db : DB
}.

(** The function handed to [Write]: it works on the struct it is given
    and on the heap, and may return an error. *)
Definition mutator : Type :=
  DB → heap cell → DB * heap cell * option error.

(** The function handed to [Read]. It is given the pointer of the store
    itself: it can look, which gives the [A], and it can assign through
    the pointer and store into the heap. *)
Definition visitor (A : Type) : Type :=
  DB → heap cell → A * DB * heap cell.

(** A visitor that only looks. *)
Definition look {A : Type} (visit : DB → heap cell → A) : visitor A :=
  λ db h, (visit db h, db, h).

(** [Read] calls [fn] with the struct of the store: what [fn] saw, the
    store and the heap after the call. *)
Definition Read {A : Type} (p : JSONFileDB) (fn : visitor A)
    (h : heap cell) : A * JSONFileDB * heap cell :=
  let '(a, db', h') := fn (db p) h in
  (a, {| path := path p; data := data p; db := db' |}, h').

(** [Write]: the error returned, the store, the file system and the heap
    after the call. *)
Definition Write (p : JSONFileDB) (fn : mutator) (fs : filesys)
    (h : heap cell) : option error * JSONFileDB * filesys * heap cell :=
  match json_Unmarshal (data p) new_DB h with
  | Err err => (Some (WrapError "JSONFileDB.Write: " err), p, fs, h)
  | Ok (db0, h) =>
  match fn db0 h with
  | (_, h, Some err) => (Some err, p, fs, h)
  | (db1, h, None) =>
  match json_Marshal db1 h with
  | Err err => (Some (WrapError "JSONFileDB.Write: " err), p, fs, h)
  | Ok data' =>
  if bytes_Equal data' (data p) then (None, p, fs, h) (* no change *)
  else
  match os_CreateTemp (filepath_Dir (path p))
                      (filepath_Base (path p) ++ ".tmp") fs with
  | Err err => (Some (WrapError "JSONFileDB.Write: temp: " err), p, fs, h)
  | Ok (f, fs) =>
  let '(err, fs) := File_Write f data' fs in
  let '(err1, fs) := File_Close f fs in
  let err := match err1, err with
             | Some e1, None => Some e1
             | _, _ => err
             end in
  match err with
  | Some err => (Some (WrapError "JSONFileDB.Write: " err), p, fs, h)
  | None =>
  match os_Rename (Name f) (path p) fs with
  | Err err =>
      (Some (WrapError "JSONFileDB.Write: rename: " err), p, fs, h)
  | Ok fs =>
  match json_Unmarshal data' new_DB h with (* avoid any aliased memory *)
  | Err err => (Some (WrapError "JSONFileDB.Write: " err), p, fs, h)
  | Ok (db2, h) =>
      (None, {| path := path p; data := data'; db := db2 |}, fs, h)
  end end end end end end end.

(** The mutator of [New]: [func(db *DB) error { return nil }]. *)
Definition noop : mutator := λ db h, (db, h, None).

Definition New (path : string) (fs : filesys) (h : heap cell)
    : result JSONFileDB * filesys * heap cell :=
  let p := {| path := path; data := "{}"; db := new_DB |} in
  match Write p noop fs h with
  | (Some err, _, fs, h) => (Err (WrapError "JSONFileDB.New: " err), fs, h)
  | (None, p, fs, h) => (Ok p, fs, h)
  end.

Definition Load (path : string) (fs : filesys) (h : heap cell)
    : result JSONFileDB * heap cell :=
  match os_ReadFile path fs with
  | Err err => (Err (WrapError "JSONFileDB.Load: " err), h)
  | Ok data =>
      match json_Unmarshal data new_DB h with
      | Err err => (Err (WrapError "JSONFileDB.Load: " err), h)
      | Ok (db, h) => (Ok {| path := path; data := data; db := db |}, h)
      end
  end.

End JSONFileDB.

Arguments JSONFileDB DB : clear implicits.
Arguments mutator DB cell : clear implicits.
Arguments visitor DB cell A : clear implicits.

(** ** JSON text

    The documents that the stored types below are encoded as: [null], and
    objects whose members are integers, [null] or arrays of integers,
    with white space between the tokens. A text outside this fragment is
    reported as a syntax error. *)

Inductive token :=
| TLBrace | TRBrace | TLBrack | TRBrack | TColon | TComma
| TString (s : string)
| TAtom (s : string).

Inductive lex_state :=
| Idle
| InString (acc : string)
| InAtom (acc : string).

Definition is_space (c : ascii) : bool :=
  bool_decide (c = " "%char) || bool_decide (c = "009"%char) ||
  bool_decide (c = "010"%char) || bool_decide (c = "013"%char).

Definition is_digit (c : ascii) : bool :=
  let n := nat_of_ascii c in (48 <=? n)%nat && (n <=? 57)%nat.

Definition is_atom_char (c : ascii) : bool :=
  let n := nat_of_ascii c in
  is_digit c || bool_decide (c = "-"%char) ||
  ((97 <=? n)%nat && (n <=? 122)%nat).

Definition punct (c : ascii) : option token :=
  if bool_decide (c = "{"%char) then Some TLBrace
  else if bool_decide (c = "}"%char) then Some TRBrace
  else if bool_decide (c = "["%char) then Some TLBrack
  else if bool_decide (c = "]"%char) then Some TRBrack
  else if bool_decide (c = ":"%char) then Some TColon
  else if bool_decide (c = ","%char) then Some TComma
  else None.

(** The double quote, and JSON text written with apostrophes in its place:
    [js "{'Val':1}"] is the text with double quotes around [Val]. *)
Definition dquote : ascii := "034"%char.

Fixpoint js (s : string) : string :=
  match s with
  | "" => ""
  | String c s' =>
      String (if bool_decide (c = "'"%char) then dquote else c) (js s')
  end.

Definition snoc_char (s : string) (c : ascii) : string := s ++ String c "".

(** The scanner: the tokens of the text, or [None] at a character that
    starts no token or inside an unfinished string. *)
Fixpoint lex (st : lex_state) (s : string) : option (list token) :=
  match s with
  | "" =>
      match st with
      | Idle => Some []
      | InString _ => None
      | InAtom a => Some [TAtom a]
      end
  | String c s' =>
      match st with
      | InString acc =>
          if bool_decide (c = dquote) then cons (TString acc) <$> lex Idle s'
          else if bool_decide (c = "\"%char) then None
          else lex (InString (snoc_char acc c)) s'
      | InAtom acc =>
          if is_atom_char c then lex (InAtom (snoc_char acc c)) s'
          else if is_space c then cons (TAtom acc) <$> lex Idle s'
          else match punct c with
               | Some t => (λ ts, TAtom acc :: t :: ts) <$> lex Idle s'
               | None => None
               end
      | Idle =>
          if is_space c then lex Idle s'
          else if bool_decide (c = dquote) then lex (InString "") s'
          else if is_atom_char c then lex (InAtom (String c "")) s'
          else t ← punct c; cons t <$> lex Idle s'
      end
  end.

Fixpoint digits_value (s : string) (acc : Z) : option Z :=
  match s with
  | "" => Some acc
  | String c s' =>
      if is_digit c
      then digits_value s' (10 * acc + Z.of_nat (nat_of_ascii c - 48))%Z
      else None
  end.

(** A JSON integer: an optional minus sign, then [0] or digits that do not
    start with [0]. *)
Definition natural_value (s : string) : option Z :=
  match s with
  | "" => None
  | String c s' =>
      if bool_decide (c = "0"%char) && negb (bool_decide (s' = "")) then None
      else digits_value s 0
  end.

Definition atom_int (a : string) : option Z :=
  match a with
  | String c a' =>
      if bool_decide (c = "-"%char) then Z.opp <$> natural_value a'
      else natural_value a
  | "" => None
  end.

Inductive jvalue :=
| JNull
| JInt (lit : string) (z : Z)
| JArray (xs : list (string * Z)).

Fixpoint parse_elems (ts : list token) : option (list (string * Z) * list token) :=
  match ts with
  | TAtom a :: TComma :: ts' =>
      z ← atom_int a;
      '(xs, rest) ← parse_elems ts';
      Some ((a, z) :: xs, rest)
  | TAtom a :: TRBrack :: ts' =>
      z ← atom_int a; Some ([(a, z)], ts')
  | _ => None
  end.

Definition parse_value (ts : list token) : option (jvalue * list token) :=
  match ts with
  | TAtom a :: ts' =>
      if bool_decide (a = "null") then Some (JNull, ts')
      else z ← atom_int a; Some (JInt a z, ts')
  | TLBrack :: TRBrack :: ts' => Some (JArray [], ts')
  | TLBrack :: ts' => '(xs, rest) ← parse_elems ts'; Some (JArray xs, rest)
  | _ => None
  end.

(** The members after an opening brace and a first key; [fuel] bounds the
    number of members by the number of tokens. *)
Fixpoint parse_members (fuel : nat) (ts : list token)
    : option (list (string * jvalue)) :=
  match fuel with
  | O => None
  | S fuel' =>
      match ts with
      | TString k :: TColon :: ts' =>
          '(v, rest) ← parse_value ts';
          match rest with
          | [TRBrace] => Some [(k, v)]
          | TComma :: rest' => cons (k, v) <$> parse_members fuel' rest'
          | _ => None
          end
      | _ => None
      end
  end.

(** A document: [None] for [null], the members for an object. *)
Definition parse_document (text : bytes)
    : json_error + option (list (string * jvalue)) :=
  match lex Idle text with
  | None => inl (SyntaxError "invalid character")
  | Some [TAtom "null"] => inr None
  | Some [TLBrace; TRBrace] => inr (Some [])
  | Some (TLBrace :: ts) =>
      match parse_members (length ts) ts with
      | Some ms => inr (Some ms)
      | None => inl (SyntaxError "invalid character")
      end
  | Some _ => inl (SyntaxError "invalid character")
  end.

(** Go's [int] on a 64-bit platform. *)
Definition fits_int (z : Z) : bool :=
  Z.leb (- 2 ^ 63) z && Z.ltb z (2 ^ 63).

Definition encode_ints (xs : list Z) : string :=
  "[" ++ String.concat "," (pretty <$> xs) ++ "]".

Definition lower_char (c : ascii) : ascii :=
  let n := nat_of_ascii c in
  if (65 <=? n)%nat && (n <=? 90)%nat then ascii_of_nat (n + 32) else c.

Fixpoint lower (s : string) : string :=
  match s with
  | "" => ""
  | String c s' => String (lower_char c) (lower s')
  end.

(** A key of the text names a field when it is the field's name up to the
    case of its letters. *)
Definition key_matches (key field : string) : bool :=
  bool_decide (lower key = lower field).

(** Decoding an object: its members in order, each into the target. *)
Fixpoint assign_all {T S : Type} (assign : T → S → string * jvalue → json_error + T * S)
    (ms : list (string * jvalue)) (target : T) (h : S) : json_error + T * S :=
  match ms with
  | [] => inr (target, h)
  | m :: ms' =>
      match assign target h m with
      | inl e => inl e
      | inr (target', h') => assign_all assign ms' target' h'
      end
  end.

Definition decode_with {T S : Type} (assign : T → S → string * jvalue → json_error + T * S)
    (text : bytes) (target : T) (h : S) : json_error + T * S :=
  match parse_document text with
  | inl e => inl e
  | inr None => inr (target, h)
  | inr (Some ms) => assign_all assign ms target h
  end.

(** ** Three stored types *)

(** [struct { Val int; dirty bool }]: one exported field and one that
    [encoding/json] does not see. *)
Module Counter.

Record t := { Val : Z; dirty : bool }.

Definition assign (target : t) (h : gmap positive Empty_set)
    (m : string * jvalue) : json_error + t * gmap positive Empty_set :=
  if key_matches m.1 "Val" then
    match m.2 with
    | JNull => inr (target, h)
    | JInt lit z =>
        if fits_int z then inr ({| Val := z; dirty := dirty target |}, h)
        else inl (UnmarshalTypeError ("number " ++ lit) "int")
    | JArray _ => inl (UnmarshalTypeError "array" "int")
    end
  else inr (target, h).

#[global] Instance codec : Codec t Empty_set := {
  new_DB := {| Val := 0; dirty := false |};
  encode v _ := inr (js "{'Val':" ++ pretty (Val v) ++ "}");
  decode := decode_with assign
}.

End Counter.

(** [struct{}]. *)
Module Blank.

Definition assign (target : unit) (h : gmap positive Empty_set)
    (m : string * jvalue) : json_error + unit * gmap positive Empty_set :=
  inr (target, h).

#[global] Instance codec : Codec unit Empty_set := {
  new_DB := tt;
  encode _ _ := inr "{}";
  decode := decode_with assign
}.

End Blank.

(** [struct { Vals []int }]: the slice is nil, or a backing array in the
    heap and a length. *)
Module Series.

Record t := { Vals : option (positive * nat) }.

(** The elements of a slice. *)
Definition elems (v : t) (h : gmap positive (list Z)) : option (list Z) :=
  match Vals v with
  | None => None
  | Some (l, n) => Some (take n (default [] (h !! l)))
  end.

(** The cells a value refers to. *)
Definition refs (v : t) : gset positive :=
  match Vals v with
  | None => ∅
  | Some (l, _) => {[l]}
  end.

(** A decoded array goes into the backing array of the target's slice when
    that has room, and into a new array otherwise. *)
Definition store_elems (target : t) (h : gmap positive (list Z))
    (zs : list Z) : t * gmap positive (list Z) :=
  let fresh_array :=
    let l := fresh (dom h) in
    ({| Vals := Some (l, length zs) |}, <[l := zs]> h) in
  match Vals target with
  | Some (l, _) =>
      match h !! l with
      | Some arr =>
          if bool_decide (length zs ≤ length arr)%nat
          then ({| Vals := Some (l, length zs) |},
                <[l := (zs ++ drop (length zs) arr)%list]> h)
          else fresh_array
      | None => fresh_array
      end
  | None => fresh_array
  end.

Definition assign (target : t) (h : gmap positive (list Z))
    (m : string * jvalue) : json_error + t * gmap positive (list Z) :=
  if key_matches m.1 "Vals" then
    match m.2 with
    | JNull => inr ({| Vals := None |}, h)
    | JInt _ _ => inl (UnmarshalTypeError "number" "[]int")
    | JArray xs =>
        match list_find (λ x, ¬ fits_int x.2) xs with
        | Some (_, x) => inl (UnmarshalTypeError ("number " ++ x.1) "int")
        | None => inr (store_elems target h (snd <$> xs))
        end
    end
  else inr (target, h).

#[global] Instance codec : Codec t (list Z) := {
  new_DB := {| Vals := None |};
  encode v h :=
    inr (js "{'Vals':" ++
         match elems v h with
         | None => "null"
         | Some zs => encode_ints zs
         end ++ "}");
  decode := decode_with assign
}.

End Series.

(** ** What the properties are stated with *)

(** The four steps of the durable write of [Write]. *)
Inductive step := StepTemp | StepWrite | StepClose | StepRename.

(** The text [Write] puts in front of a failure of each step. *)
Definition step_context (s : step) : string :=
  match s with
  | StepTemp => "JSONFileDB.Write: temp: "
  | StepWrite => "JSONFileDB.Write: "
  | StepClose => "JSONFileDB.Write: "
  | StepRename => "JSONFileDB.Write: rename: "
  end.

(** The file system refuses step [s] of the durable write of [data'] to
    [path] with the error [err], and is left as [fs']. *)
Inductive durable_write_fails (path : string) (data' : bytes) (fs : filesys)
    : step → error → filesys → Prop :=
| fails_temp err :
    os_CreateTemp (filepath_Dir path) (filepath_Base path ++ ".tmp") fs
      = Err err →
    durable_write_fails path data' fs StepTemp err fs
| fails_write f fs1 err fs2 err1 fs3 :
    os_CreateTemp (filepath_Dir path) (filepath_Base path ++ ".tmp") fs
      = Ok (f, fs1) →
    File_Write f data' fs1 = (Some err, fs2) →
    File_Close f fs2 = (err1, fs3) →
    durable_write_fails path data' fs StepWrite err fs3
| fails_close f fs1 fs2 err fs3 :
    os_CreateTemp (filepath_Dir path) (filepath_Base path ++ ".tmp") fs
      = Ok (f, fs1) →
    File_Write f data' fs1 = (None, fs2) →
    File_Close f fs2 = (Some err, fs3) →
    durable_write_fails path data' fs StepClose err fs3
| fails_rename f fs1 fs2 fs3 err :
    os_CreateTemp (filepath_Dir path) (filepath_Base path ++ ".tmp") fs
      = Ok (f, fs1) →
    File_Write f data' fs1 = (None, fs2) →
    File_Close f fs2 = (None, fs3) →
    os_Rename (Name f) path fs3 = Err err →
    durable_write_fails path data' fs StepRename err fs3.

Section Stores.
Context {DB cell : Type} `{!Codec DB cell}.

(** A mutator that sets the state to [v]. *)
Definition set_to (v : DB) : mutator DB cell := λ _ h, (v, h, None).

(** The bytes of the store are the encoding of its value. *)
Definition bytes_encode_value (p : JSONFileDB DB) (h : heap cell) : Prop :=
  json_Marshal (db p) h = Ok (data p).

(** The cells that a value refers to, for the stored type at hand. *)
Variable refs : DB → gset positive.

(** The cells of [v] hold in [h] what they hold in [h0]. *)
Definition same_cells (v : DB) (h h0 : heap cell) : Prop :=
  ∀ l, l ∈ refs v → h !! l = h0 !! l.

(** A visitor that only looks: it leaves the struct, and the cells the
    struct refers to, as they are. *)
Definition looks_only {A : Type} (fn : visitor DB cell A) (v : DB)
    (h : heap cell) : Prop :=
  (fn v h).1.2 = v ∧ same_cells v (fn v h).2 h.

(** A mutator that holds no reference into [v]: called with [d] and [h],
    it leaves the cells of [v] as they are. *)
Definition keeps_off (fn : mutator DB cell) (v d : DB) (h : heap cell)
    : Prop :=
  same_cells v (fn d h).1.2 h.

(** The store and the heap of a program that keeps to the contract of
    the package: the store is made by [New] or [Load] and then goes
    through [Write] and [Read] in any order; the visitors only look; the
    mutators, and the program's own code between the calls, hold no
    reference into the value of the store. The file system of each call
    is whatever it is at that time. *)
Inductive reachable : JSONFileDB DB → heap cell → Prop :=
| reachable_New name fs h p fs' h' :
    New name fs h = (Ok p, fs', h') → reachable p h'
| reachable_Load name fs h p h' :
    Load name fs h = (Ok p, h') → reachable p h'
| reachable_Write p h fn fs r p' fs' h' :
    reachable p h →
    (∀ db0 h0, json_Unmarshal (data p) new_DB h = Ok (db0, h0) →
               keeps_off fn (db p) db0 h0) →
    Write p fn fs h = (r, p', fs', h') → reachable p' h'
| reachable_Read p h (A : Type) (fn : visitor DB cell A) a p' h' :
    reachable p h → looks_only fn (db p) h →
    Read p fn h = (a, p', h') → reachable p' h'
| reachable_between p h h' :
    reachable p h → same_cells (db p) h' h → reachable p h'.

(** The value of the store, with the cells it refers to as the heap has
    them, is what its bytes decode to. *)
Definition value_decodes_bytes (p : JSONFileDB DB) (h : heap cell) : Prop :=
  ∃ h0 h1, json_Unmarshal (data p) new_DB h0 = Ok (db p, h1) ∧
           same_cells (db p) h h1.

End Stores.

(** ** The scenarios of the tests *)

Module Scenario.

(** A disk with the directories [/] and [/srv] and the given entries. *)
Definition disk (entries : list (string * node)) : filesys :=
  {| nodes := list_to_map (("/", Dir true) :: ("/srv", Dir true) :: entries);
     clock := 1;
     free_space := 4096;
     seed := 0;
     close_fault := false |}.

Definition db_json : string := "/srv/db.json".

(** [/srv/db.json] as written by hand, with a space after the colon. *)
Definition edited : filesys := disk [(db_json, File (js "{'Val': 1}") 0)].

(** [/srv/db.json] as [Write] leaves it. *)
Definition written : filesys := disk [(db_json, File (js "{'Val':1}") 0)].


(** The directory [/srv] made read-only, as [TestFileError] does. *)
Definition read_only : filesys :=
  {| nodes := <["/srv" := Dir false]> (nodes written);
     clock := 1; free_space := 4096; seed := 0; close_fault := false |}.

Definition full : filesys :=
  {| nodes := nodes written;
     clock := 1; free_space := 4; seed := 0; close_fault := false |}.

Definition failing_close : filesys :=
  {| nodes := nodes written;
     clock := 1; free_space := 4096; seed := 0; close_fault := true |}.

(** The store over [/srv/db.json] holding [Val = 1]. *)
Definition one : JSONFileDB Counter.t :=
  {| path := db_json;
     data := js "{'Val':1}";
     db := {| Counter.Val := 1; Counter.dirty := false |} |}.

(** The store that [Load] makes of the file written by hand. *)
Definition loaded : JSONFileDB Counter.t :=
  {| path := db_json;
     data := js "{'Val': 1}";
     db := {| Counter.Val := 1; Counter.dirty := false |} |}.

(** The store that [New] returns for [Counter]. *)
Definition zero : JSONFileDB Counter.t :=
  {| path := db_json;
     data := js "{'Val':0}";
     db := {| Counter.Val := 0; Counter.dirty := false |} |}.

(** The disk after [New] for [Series]. *)
Definition series_disk : filesys :=
  disk [(db_json, File (js "{'Vals':null}") 0)].

(** The store that [New] returns for [Series]. *)
Definition no_vals : JSONFileDB Series.t :=
  {| path := db_json;
     data := js "{'Vals':null}";
     db := {| Series.Vals := None |} |}.

Definition set_Val (z : Z) : mutator Counter.t Empty_set :=
  λ db h, ({| Counter.Val := z; Counter.dirty := true |}, h, None).

(** The mutator of [TestRollbackOnProgramError]. *)
Definition rollbackErr : error := ErrorString "rollback".

Definition failing : mutator Counter.t Empty_set :=
  λ db h, ({| Counter.Val := 2; Counter.dirty := true |}, h, Some rollbackErr).

(** [TestNoAlias]: the caller's slice [someVals] is the array at cell 1. *)
Definition someVals : positive * nat := (1%positive, 3%nat).

Definition caller_heap : gmap positive (list Z) := {[ 1%positive := [1; 2; 3]%Z ]}.

Definition capture : mutator Series.t (list Z) :=
  λ db h, ({| Series.Vals := Some someVals |}, h, None).

End Scenario.

(** ** More of the vocabulary *)

Fixpoint has_slash (s : string) : bool :=
  match s with
  | "" => false
  | String c s' => bool_decide (c = "/"%char) || has_slash s'
  end.

(** A path as [filepath.Clean] leaves it, as far as [Write] depends on
    it: a last element that is not empty, and no separator at the end of
    what stands before it. *)
Definition clean_path (path : string) : Prop :=
  snd (split_path path) ≠ "" ∧
  ∀ d, fst (split_path path) = Some d → ends_with_slash d = false.

(** The three texts that [Write] puts in front of a failure that is not
    the mutator's. *)
Definition Write_contexts : list string :=
  ["JSONFileDB.Write: "; "JSONFileDB.Write: temp: ";
   "JSONFileDB.Write: rename: "].

(** [struct { Last error }]: a field of an interface type. A value in it
    is encoded as an object, and an object cannot be decoded into the nil
    interface of a new struct. *)
Module Journal.

Record t := { Last : option string }.

Definition assign (target : t) (h : gmap positive Empty_set)
    (m : string * jvalue) : json_error + t * gmap positive Empty_set :=
  if key_matches m.1 "Last" then
    match m.2 with
    | JNull => inr ({| Last := None |}, h)
    | JInt _ _ => inl (UnmarshalTypeError "number" "error")
    | JArray _ => inl (UnmarshalTypeError "array" "error")
    end
  else inr (target, h).

(** The one document with an object inside that [encode] produces is
    read here; the others go through [decode_with]. *)
Definition decode (text : bytes) (target : t) (h : gmap positive Empty_set)
    : json_error + t * gmap positive Empty_set :=
  match lex Idle text with
  | Some [TLBrace; TString k; TColon; TLBrace; TRBrace; TRBrace] =>
      if key_matches k "Last" then
        match Last target with
        | None => inl (UnmarshalTypeError "object" "error")
        | Some _ => inr (target, h)
        end
      else inr (target, h)
  | _ => decode_with assign text target h
  end.

#[global] Instance codec : Codec t Empty_set := {
  new_DB := {| Last := None |};
  encode v _ :=
    inr (match Last v with
         | None => js "{'Last':null}"
         | Some _ => js "{'Last':{}}"
         end);
  decode := decode
}.

End Journal.

Module Scenario2.

(** The store that [New] returns for [Journal], and its disk. *)
Definition journal : JSONFileDB Journal.t :=
  {| path := Scenario.db_json;
     data := js "{'Last':null}";
     db := {| Journal.Last := None |} |}.

Definition journal_disk : filesys :=
  Scenario.disk [(Scenario.db_json, File (js "{'Last':null}") 0)].

(** A mutator that records an error value. *)
Definition record_error : mutator Journal.t Empty_set :=
  λ db h, ({| Journal.Last := Some "boom" |}, h, None).

(** [/srv/db.json] beside another file. *)
Definition other_json : string := "/srv/other.json".

Definition with_other : filesys :=
  Scenario.disk [(Scenario.db_json, File (js "{'Val':1}") 0);
                 (other_json, File "[]" 0)].

(** [Counter] refers to no cell. *)
Definition no_refs : Counter.t → gset positive := λ _, ∅.

(** A visitor that assigns through the pointer it is given. *)
Definition overwrite : visitor Counter.t Empty_set unit :=
  λ _ h, (tt, {| Counter.Val := 7; Counter.dirty := false |}, h).


(** A disk without the directory [/srv]. *)
Definition no_srv : filesys :=
  {| nodes := {[ "/" := Dir true ]};
     clock := 1; free_space := 4096; seed := 0; close_fault := false |}.

End Scenario2.

(** * Properties *)

(** [errors.Is(err, err)] holds. *)
Lemma errors_Is_refl (err : error) : errors_Is err err = true.
Proof.
  destruct err; cbn [errors_Is]; apply orb_true_iff; left;
    by apply bool_decide_eq_true_2.
Qed.

Section Write_paths.
Context {DB cell : Type} `{!Codec DB cell}.
Implicit Types (p : JSONFileDB DB) (fn : mutator DB cell) (fs : filesys).

(** Whatever goes wrong, the store is the one before the call. *)
Lemma Write_error_keeps_store p fn fs h err p' fs' h' :
  Write p fn fs h = (Some err, p', fs', h') → p' = p.
Proof.
  unfold Write. intros Hw.
  repeat case_match; simplify_eq; reflexivity.
Qed.

(** C1: when the mutator returns an error, [Write] returns that very
    error (so [errors.Is] finds it), touches neither the file system nor
    the store, and a [Read] that follows sees the value from before the
    call. *)
Theorem Write_mutator_error p fn fs h db0 h0 db1 h1 err :
  json_Unmarshal (data p) new_DB h = Ok (db0, h0) →
  fn db0 h0 = (db1, h1, Some err) →
  Write p fn fs h = (Some err, p, fs, h1) ∧
  errors_Is err err = true ∧
  ∀ (A : Type) (visit : DB → heap cell → A),
    (Read (Write p fn fs h).1.1.2 (look visit) h1).1.1 = visit (db p) h1.
Proof.
  intros Hdec Hfn.
  assert (Write p fn fs h = (Some err, p, fs, h1)) as Hw.
  { unfold Write. by rewrite Hdec, Hfn. }
  rewrite Hw. split_and!; [done|apply errors_Is_refl|done].
Qed.

(** C4, as the code has it: when the bytes encoded after the mutator are
    the bytes of the store, [Write] succeeds and leaves the file system
    (content and modification times) and the store as they were. *)
Theorem Write_same_bytes_no_io p fn fs h db0 h0 db1 h1 :
  json_Unmarshal (data p) new_DB h = Ok (db0, h0) →
  fn db0 h0 = (db1, h1, None) →
  json_Marshal db1 h1 = Ok (data p) →
  Write p fn fs h = (None, p, fs, h1).
Proof.
  intros Hdec Hfn Henc. unfold Write, bytes_Equal.
  rewrite Hdec, Hfn, Henc. by rewrite bool_decide_eq_true_2.
Qed.

(** C10: a [Write] that commits stores the value decoded from the bytes
    it wrote, and those bytes; the struct the mutator worked on is not
    what the store keeps. *)
Theorem Write_commits_decoded p fn fs h db0 h0 db1 h1 data' p' fs' h' :
  json_Unmarshal (data p) new_DB h = Ok (db0, h0) →
  fn db0 h0 = (db1, h1, None) →
  json_Marshal db1 h1 = Ok data' →
  data' ≠ data p →
  Write p fn fs h = (None, p', fs', h') →
  json_Unmarshal data' new_DB h1 = Ok (db p', h') ∧ data p' = data'.
Proof.
  intros Hdec Hfn Henc Hne. unfold Write, bytes_Equal.
  rewrite Hdec, Hfn, Henc, bool_decide_eq_false_2 by done.
  intros Hw. repeat case_match; simplify_eq. done.
Qed.

End Write_paths.

(** ** The temporary file is never the target *)

Lemma string_length_app (a b : string) :
  String.length (a ++ b) = (String.length a + String.length b)%nat.
Proof. induction a as [|c a IH]; simpl; [done | by rewrite IH]. Qed.

Lemma split_path_length (s : string) :
  String.length s =
    match split_path s with
    | (None, b) => String.length b
    | (Some d, b) => (String.length d + 1 + String.length b)%nat
    end.
Proof.
  induction s as [|c s IH]; [done|].
  simpl. destruct (split_path s) as [[d|] b]; case_bool_decide; simpl; lia.
Qed.

Lemma filepath_Dir_Base_length (s : string) :
  (String.length s ≤
     String.length (filepath_Dir s) + String.length (filepath_Base s) + 1)%nat.
Proof.
  unfold filepath_Dir, filepath_Base. rewrite (split_path_length s).
  destruct (split_path s) as [[[|c d]|] [|c' b]]; simpl;
    try case_bool_decide; simpl; lia.
Qed.

Lemma joinPath_length (dir name : string) :
  (String.length dir + String.length name ≤ String.length (joinPath dir name))%nat.
Proof.
  unfold joinPath. destruct (ends_with_slash dir);
    rewrite !string_length_app; simpl; lia.
Qed.

(** Every name that [Write] hands to [os.CreateTemp] is longer than the
    path of the store. *)
Lemma temp_name_not_path (path : string) (rnd : nat) :
  joinPath (filepath_Dir path) (filepath_Base path ++ ".tmp") ++ pretty rnd
    ≠ path.
Proof.
  intros Heq. apply (f_equal String.length) in Heq.
  rewrite string_length_app in Heq.
  pose proof (joinPath_length (filepath_Dir path) (filepath_Base path ++ ".tmp")) as Hj.
  rewrite string_length_app in Hj. simpl in Hj.
  pose proof (filepath_Dir_Base_length path). lia.
Qed.

(** What a successful [os.CreateTemp] does: a new empty file under a name
    that was free. *)
Lemma createTemp_loop_Ok tries prefix rnd fs f fs' :
  createTemp_loop tries prefix rnd fs = Ok (f, fs') →
  ∃ r : nat, Name f = prefix ++ pretty r ∧
       nodes fs !! Name f = None ∧
       nodes fs' = <[Name f := File "" (clock fs)]> (nodes fs) ∧
       free_space fs' = free_space fs ∧ close_fault fs' = close_fault fs.
Proof.
  revert rnd. induction tries as [|tries IH]; intros rnd; simpl; [done|].
  unfold open_excl. intros Hc.
  repeat case_match; simplify_eq; eauto.
  exists rnd. done.
Qed.

(** Neither creating, writing nor closing the temporary file touches an
    entry under another name. *)
Lemma temp_file_frame path data' fs f fs1 err fs2 err1 fs3 :
  os_CreateTemp (filepath_Dir path) (filepath_Base path ++ ".tmp") fs
    = Ok (f, fs1) →
  File_Write f data' fs1 = (err, fs2) →
  File_Close f fs2 = (err1, fs3) →
  Name f ≠ path ∧
  nodes fs3 !! path = nodes fs !! path ∧
  nodes fs3 !! Name f =
    Some (File (if bool_decide (String.length data' ≤ free_space fs)%nat
                then data'
                else String.substring 0 (free_space fs) data')
               (clock fs1)).
Proof.
  unfold os_CreateTemp, File_Write, File_Close.
  intros (r & Hname & Hfree & Hn1 & Hsp & _)%createTemp_loop_Ok Hw Hc.
  assert (Name f ≠ path) as Hne.
  { rewrite Hname. apply temp_name_not_path. }
  split; [done|].
  assert (nodes fs3 = nodes fs2) as ->.
  { destruct (close_fault fs2); by simplify_eq. }
  simplify_eq. simpl. rewrite Hn1, Hsp.
  rewrite lookup_insert_ne, lookup_insert_ne, lookup_insert_eq by done.
  split; [done|]. by destruct (bool_decide _).
Qed.

(** When all four steps succeed, the target holds the bytes written. *)
Lemma durable_write_Ok_file path data' fs f fs1 fs2 err1 fs3 fs4 :
  os_CreateTemp (filepath_Dir path) (filepath_Base path ++ ".tmp") fs
    = Ok (f, fs1) →
  File_Write f data' fs1 = (None, fs2) →
  File_Close f fs2 = (err1, fs3) →
  os_Rename (Name f) path fs3 = Ok fs4 →
  os_ReadFile path fs4 = Ok data'.
Proof.
  intros Ht Hw Hc Hr.
  destruct (temp_file_frame _ _ _ _ _ _ _ _ _ Ht Hw Hc) as (Hn & _ & Hf).
  apply createTemp_loop_Ok in Ht as (_ & _ & _ & _ & Hsp & _).
  unfold File_Write in Hw. rewrite Hsp in Hw.
  case_bool_decide as Hfit; simplify_eq.
  unfold os_Rename in Hr. rewrite Hf in Hr.
  unfold os_ReadFile.
  repeat case_match; simplify_eq; simpl in *;
    rewrite lookup_insert_eq in *; by simplify_eq.
Qed.

Section Durable_write.
Context {DB cell : Type} `{!Codec DB cell}.
Implicit Types (p : JSONFileDB DB) (fn : mutator DB cell) (fs : filesys).

(** A failed durable write leaves the entry of the target as it was. *)
Lemma durable_write_fails_target path data' fs s err fs' :
  durable_write_fails path data' fs s err fs' →
  nodes fs' !! path = nodes fs !! path.
Proof.
  destruct 1 as [err Ht|f fs1 err fs2 err1 fs3 Ht Hw Hc
                |f fs1 fs2 err fs3 Ht Hw Hc|f fs1 fs2 fs3 err Ht Hw Hc Hr];
    [done|..]; by destruct (temp_file_frame _ _ _ _ _ _ _ _ _ Ht Hw Hc) as (_ & ? & _).
Qed.

(** C2, as the code has it: when a step of the durable write fails,
    [Write] returns the failure behind the text of that step (the general
    prefix alone for the write and the close), the store is the one before
    the call, and the entry of the target file is untouched. *)
Theorem Write_durable_write_failure
    p fn fs h db0 h0 db1 h1 data' s err fs' :
  json_Unmarshal (data p) new_DB h = Ok (db0, h0) →
  fn db0 h0 = (db1, h1, None) →
  json_Marshal db1 h1 = Ok data' →
  data' ≠ data p →
  durable_write_fails (path p) data' fs s err fs' →
  Write p fn fs h = (Some (WrapError (step_context s) err), p, fs', h1) ∧
  nodes fs' !! path p = nodes fs !! path p.
Proof.
  intros Hdec Hfn Henc Hne Hfail.
  split; [|by eapply durable_write_fails_target].
  unfold Write, bytes_Equal.
  rewrite Hdec, Hfn, Henc, bool_decide_eq_false_2 by done.
  destruct Hfail as [err Ht|f fs1 err fs2 err1 fs3 Ht Hw Hc
                    |f fs1 fs2 err fs3 Ht Hw Hc|f fs1 fs2 fs3 err Ht Hw Hc Hr];
    rewrite Ht; [done|..]; rewrite Hw, Hc; [by destruct err1|done|].
  by rewrite Hr.
Qed.

(** After a [Write] that commits, the target file holds the new bytes of
    the store. *)
Lemma Write_commit_file p fn fs h p' fs' h' :
  Write p fn fs h = (None, p', fs', h') →
  data p' ≠ data p →
  os_ReadFile (path p) fs' = Ok (data p').
Proof.
  unfold Write, bytes_Equal. intros Hw Hne.
  repeat case_match; simplify_eq; try done; simpl;
    by eapply durable_write_Ok_file.
Qed.

End Durable_write.

Section Store_life.
Context {DB cell : Type} `{!Codec DB cell}.
Implicit Types (p : JSONFileDB DB) (fn : mutator DB cell) (fs : filesys).

(** What a successful [Write] went through. *)
Lemma Write_success_inv p fn fs h p' fs' h' :
  Write p fn fs h = (None, p', fs', h') →
  ∃ db0 h0 db1 h1,
    json_Unmarshal (data p) new_DB h = Ok (db0, h0) ∧
    fn db0 h0 = (db1, h1, None) ∧
    json_Marshal db1 h1 = Ok (data p') ∧
    ((p' = p ∧ fs' = fs ∧ h' = h1) ∨
     (data p' ≠ data p ∧ path p' = path p ∧
      json_Unmarshal (data p') new_DB h1 = Ok (db p', h'))).
Proof.
  unfold Write, bytes_Equal. intros Hw.
  repeat case_match; simplify_eq; simpl;
    match goal with
    | Hb : bool_decide _ = true |- _ => apply bool_decide_eq_true_1 in Hb
    | Hb : bool_decide _ = false |- _ => apply bool_decide_eq_false_1 in Hb
    end; subst;
    do 4 eexists; (split_and!; [done..|]); first [by left | by right].
Qed.

(** What a successful [New] returns: the store it started from when the
    encoding of the decoded empty document is the empty document again,
    and a store whose bytes are in the file otherwise. *)
Lemma New_Ok_inv name fs h p fs' h' :
  New name fs h = (Ok p, fs', h') →
  Write {| path := name; data := "{}"; db := new_DB |} noop fs h
    = (None, p, fs', h') ∧
  path p = name ∧
  ((p = {| path := name; data := "{}"; db := new_DB |} ∧ fs' = fs) ∨
   (data p ≠ "{}" ∧ os_ReadFile name fs' = Ok (data p))).
Proof.
  unfold New. intros Hn.
  destruct (Write _ noop fs h) as [[[[err|] q] fs1] h1] eqn:Hw; simplify_eq.
  split; [done|].
  destruct (Write_success_inv _ _ _ _ _ _ _ Hw)
    as (db0 & h0 & db1 & h2 & _ & _ & _ & [(-> & -> & _)|(Hne & Hp & _)]).
  - split; [done|]. by left.
  - split; [done|]. right. split; [done|].
    by apply (Write_commit_file _ _ _ _ _ _ _ Hw).
Qed.

(** C5, as the code has it: after [New], a successful [Write] that sets
    the state to [v], with the bytes of [v] written by one of the two
    calls, loading the path again gives a store whose value is deep-equal
    to [v], whenever the encoding of [v] decodes to a value deep-equal
    to [v]. [view] is what a deep comparison looks at: the struct with
    the contents of the cells it refers to; [hm] is the heap that the
    mutator leaves, in which [v] has its elements. *)
Theorem New_Write_Load_round_trip {V : Type} (view : DB → heap cell → V)
    name fs h p fs1 h1 db0 hm v p2 fs2 h2 hL :
  New name fs h = (Ok p, fs1, h1) →
  json_Unmarshal (data p) new_DB h1 = Ok (db0, hm) →
  Write p (set_to v) fs1 h1 = (None, p2, fs2, h2) →
  data p ≠ "{}" ∨ data p2 ≠ data p →
  (∀ b, json_Marshal v hm = Ok b →
        ∃ v' hL', json_Unmarshal b new_DB hL = Ok (v', hL') ∧
                  view v' hL' = view v hm) →
  ∃ p3 hL', Load name fs2 hL = (Ok p3, hL') ∧
            view (db p3) hL' = view v hm ∧
            (Read p3 (look view) hL').1.1 = view v hm.
Proof.
  intros (_ & Hpath & Hnew)%New_Ok_inv Hdec Hw Hwrote Hrt.
  destruct (Write_success_inv _ _ _ _ _ _ _ Hw)
    as (d0 & g0 & db1 & g1 & Hdec' & Hset & Henc & Hcase).
  rewrite Hdec in Hdec'. unfold set_to in Hset. simplify_eq.
  assert (os_ReadFile (path p) fs2 = Ok (data p2)) as Hfile.
  { destruct Hcase as [(-> & -> & _)|(Hne & _ & _)].
    - destruct Hnew as [[Hp _]|[_ Hf]]; [|done].
      apply (f_equal data) in Hp. by destruct Hwrote.
    - by apply (Write_commit_file _ _ _ _ _ _ _ Hw). }
  destruct (Hrt _ Henc) as (v' & hL' & Hd & Hview).
  eexists _, hL'. unfold Load. rewrite Hfile, Hd. done.
Qed.


(** A store that [Load] returns holds the file's bytes and their
    decoding. *)
Lemma Load_Ok_inv path fs h p h' :
  Load path fs h = (Ok p, h') →
  os_ReadFile path fs = Ok (data p) ∧
  json_Unmarshal (data p) new_DB h = Ok (db p, h').
Proof.
  unfold Load. intros Hl. repeat case_match; simplify_eq. done.
Qed.

(** The store and the heap that [Write] leaves: nothing decoded and
    nothing changed; the old store and the heap of the mutator; or a
    store decoded from its bytes in the heap of the mutator. *)
Lemma Write_heap_cases p fn fs h r p' fs' h' :
  Write p fn fs h = (r, p', fs', h') →
  (p' = p ∧ h' = h) ∨
  ∃ db0 h0,
    json_Unmarshal (data p) new_DB h = Ok (db0, h0) ∧
    ((p' = p ∧ h' = (fn db0 h0).1.2) ∨
     json_Unmarshal (data p') new_DB (fn db0 h0).1.2 = Ok (db p', h')).
Proof.
  unfold Write. intros Hw.
  destruct (json_Unmarshal (data p) new_DB h) as [[db0 h0]|e] eqn:Hdec;
    [|left; by simplify_eq].
  right. exists db0, h0. split; [done|].
  destruct (fn db0 h0) as [[db1 h1] o]. simpl.
  repeat case_match; simplify_eq; first [by left | by right].
Qed.

(** C3, as the code has it: for a stored type whose zero value is what
    the empty document decodes to, in every store that a program keeping
    to the contract gets from [New], [Load], [Write] and [Read], the
    value, with the cells it refers to, is what the bytes of the store
    decode to. The decoder is one that allocates what it returns and
    leaves the cells that exist alone. *)
Theorem reachable_value_decodes_bytes (refs : DB → gset positive)
    (p : JSONFileDB DB) (h : heap cell) :
  (∀ h v h', json_Unmarshal "{}" new_DB h = Ok (v, h') → v = new_DB) →
  (∀ data h v h',
     json_Unmarshal data new_DB h = Ok (v, h') →
     refs v ⊆ dom h' ∧ ∀ l, l ∈ dom h → h' !! l = h !! l) →
  reachable refs p h → value_decodes_bytes refs p h.
Proof.
  intros Hempty Hlaw.
  induction 1 as [name fs h p fs' h' Hn|name fs h p h' Hl
                 |p h fn fs r p' fs' h' _ IH Hoff Hw
                 |p h A fn a p' h' _ IH Hlook Hr
                 |p h h' _ IH Hsame].
  - apply New_Ok_inv in Hn as (Hw & _ & _).
    destruct (Write_success_inv _ _ _ _ _ _ _ Hw)
      as (db0 & h0 & db1 & h1 & Hdec & Hfn & _
          & [(-> & _ & ->)|(_ & _ & Hd)]).
    + unfold noop in Hfn. simplify_eq. simpl in Hdec.
      exists h, h1. simpl. by rewrite Hdec, (Hempty _ _ _ Hdec).
    + by exists h1, h'.
  - apply Load_Ok_inv in Hl as [_ Hd]. by exists h, h'.
  - destruct IH as (ha & hb & Hd & Hcells).
    assert (∀ l, l ∈ refs (db p) → l ∈ dom h) as Hdom.
    { intros l Hl. apply elem_of_dom. rewrite (Hcells l Hl).
      apply elem_of_dom. by apply (Hlaw _ _ _ _ Hd). }
    destruct (Write_heap_cases _ _ _ _ _ _ _ _ Hw)
      as [[-> ->]|(db0 & h0 & Hdec & [[-> ->]|Hd'])].
    + by exists ha, hb.
    + exists ha, hb. split; [done|]. intros l Hl.
      rewrite (Hoff _ _ Hdec l Hl), <- (Hcells l Hl).
      by apply (Hlaw _ _ _ _ Hdec), Hdom.
    + by eexists _, h'.
  - destruct IH as (ha & hb & Hd & Hcells). destruct Hlook as [Hv Hh].
    unfold Read in Hr. destruct (fn (db p) h) as [[a' d] g]. simpl in *.
    simplify_eq. exists ha, hb. simpl. split; [done|].
    intros l Hl. by rewrite (Hh l Hl), (Hcells l Hl).
  - destruct IH as (ha & hb & Hd & Hcells). exists ha, hb. split; [done|].
    intros l Hl. by rewrite (Hsame l Hl), (Hcells l Hl).
Qed.

End Store_life.

(** ** No aliasing *)

Section No_alias.
Context {DB cell : Type} `{!Codec DB cell}.

(** The cells a value refers to. *)
Variable refs : DB → gset positive.

(** Decoding into a new struct allocates every cell that the result
    refers to; this is what [encoding/json] does for a zero target. *)
Hypothesis decode_fresh :
  ∀ data h v h', json_Unmarshal data new_DB h = Ok (v, h') → refs v ## dom h.

(** C6: after a successful [Write], the value of the store refers to no
    cell that the caller holds ([caller]: any cells that exist when the
    mutator returns, among them what it was given and what it built),
    given that the value before the call did not; so a later store into
    the caller's cells changes nothing that a [Read] sees through the
    value. *)
Theorem Write_no_alias (p : JSONFileDB DB) (fn : mutator DB cell) fs h
    db0 h0 db1 h1 p' fs' h' (caller : gset positive) :
  json_Unmarshal (data p) new_DB h = Ok (db0, h0) →
  fn db0 h0 = (db1, h1, None) →
  caller ⊆ dom h1 →
  refs (db p) ## caller →
  Write p fn fs h = (None, p', fs', h') →
  refs (db p') ## caller ∧
  ∀ (A : Type) (visit : DB → heap cell → A),
    (∀ v ha hb, (∀ l, l ∈ refs v → ha !! l = hb !! l) →
                visit v ha = visit v hb) →
    ∀ h'' : heap cell,
      (∀ l, l ∉ caller → h'' !! l = h' !! l) →
      (Read p' (look visit) h'').1.1 = (Read p' (look visit) h').1.1.
Proof.
  intros Hdec Hfn Hcaller Hown Hw.
  assert (refs (db p') ## caller) as Hdisj.
  { destruct (Write_success_inv _ _ _ _ _ _ _ Hw)
      as (d0 & g0 & d1 & g1 & Hdec' & Hfn' & _ & [(-> & _ & _)|(_ & _ & Hd)]);
      [done|].
    rewrite Hdec in Hdec'. simplify_eq. rewrite Hfn in Hfn'. simplify_eq.
    apply decode_fresh in Hd. clear -Hd Hcaller. set_solver. }
  split; [done|].
  intros A visit Hlocal h'' Hsame. unfold Read, look. simpl.
  apply Hlocal. intros l Hl. apply Hsame. clear -Hl Hdisj. set_solver.
Qed.

End No_alias.

(** [Series]: decoding into the zero value allocates. *)
Lemma Series_assign_all_fresh (h : gmap positive (list Z)) ms target hc v h' :
  assign_all Series.assign ms target hc = inr (v, h') →
  Series.refs target ## dom h → dom h ⊆ dom hc →
  Series.refs v ## dom h.
Proof.
  revert target hc. induction ms as [|m ms IH]; intros target hc; simpl.
  { by intros [= -> ->]. }
  destruct (Series.assign target hc m) as [e|[t1 hc1]] eqn:Ha; [done|].
  intros Hrest Hdisj Hsub. apply (IH _ _ Hrest); clear IH Hrest;
    unfold Series.assign, Series.store_elems, Series.refs in *;
    repeat case_match; simplify_eq; simpl in *;
    try done; try set_solver;
    try (rewrite dom_insert; set_solver);
    try (pose proof (is_fresh (dom hc)); rewrite ?dom_insert; set_solver).
Qed.

Lemma Series_decode_fresh data (h : gmap positive (list Z)) v h' :
  json_Unmarshal data new_DB h = Ok (v, h') → Series.refs v ## dom h.
Proof.
  unfold json_Unmarshal. simpl. unfold decode_with.
  intros Hd. repeat case_match; simplify_eq.
  - eapply Series_assign_all_fresh; [done| |done]. set_solver.
  - set_solver.
Qed.

(** [Series]: the decoder allocates what it returns and leaves the cells
    that exist alone. [h] is the heap it starts from. *)
Lemma Series_assign_inv (h : gmap positive (list Z)) m target hc t1 hc1 :
  Series.assign target hc m = inr (t1, hc1) →
  Series.refs target ## dom h ∧ Series.refs target ⊆ dom hc ∧
    (∀ l, l ∈ dom h → hc !! l = h !! l) →
  Series.refs t1 ## dom h ∧ Series.refs t1 ⊆ dom hc1 ∧
    (∀ l, l ∈ dom h → hc1 !! l = h !! l).
Proof.
  intros Ha (Hdisj & Hsub & Hframe).
  assert (dom h ⊆ dom hc) as Hdom.
  { intros l Hl. apply elem_of_dom. rewrite (Hframe l Hl).
    by apply elem_of_dom. }
  pose proof (is_fresh (dom hc)) as Hfresh.
  unfold Series.assign, Series.store_elems, Series.refs in *.
  repeat case_match; simplify_eq; simpl in *;
    split_and!; try done; try set_solver;
    try (rewrite dom_insert; set_solver);
    intros l' Hl'; (rewrite lookup_insert_ne; [by apply Hframe | set_solver]).
Qed.

Lemma Series_assign_all_inv (h : gmap positive (list Z)) ms target hc v h' :
  assign_all Series.assign ms target hc = inr (v, h') →
  Series.refs target ## dom h ∧ Series.refs target ⊆ dom hc ∧
    (∀ l, l ∈ dom h → hc !! l = h !! l) →
  Series.refs v ⊆ dom h' ∧ (∀ l, l ∈ dom h → h' !! l = h !! l).
Proof.
  revert target hc. induction ms as [|m ms IH]; intros target hc; simpl.
  { intros [= -> ->] (_ & ? & ?). done. }
  destruct (Series.assign target hc m) as [e|[t1 hc1]] eqn:Ha; [done|].
  intros Hrest Hinv. apply (IH _ _ Hrest).
  by apply (Series_assign_inv h m target hc).
Qed.

Lemma Series_decode_law data (h : gmap positive (list Z)) v h' :
  json_Unmarshal data new_DB h = Ok (v, h') →
  Series.refs v ⊆ dom h' ∧ ∀ l, l ∈ dom h → h' !! l = h !! l.
Proof.
  unfold json_Unmarshal. simpl. unfold decode_with.
  intros Hd. repeat case_match; simplify_eq.
  - eapply (Series_assign_all_inv h); [done|].
    split_and!; [set_solver|set_solver|done].
  - split; [set_solver|done].
Qed.

Lemma Series_empty_document (h : gmap positive (list Z)) (v : Series.t) h' :
  json_Unmarshal "{}" new_DB h = Ok (v, h') → v = new_DB.
Proof. intros Hd. vm_compute in Hd. by simplify_eq. Qed.

(** What a visitor reads of a [Series] value, it reads through the cells
    the value refers to. *)
Lemma Series_elems_local v (ha hb : gmap positive (list Z)) :
  (∀ l, l ∈ Series.refs v → ha !! l = hb !! l) →
  Series.elems v ha = Series.elems v hb.
Proof.
  unfold Series.elems, Series.refs. destruct (Series.Vals v) as [[l n]|]; [|done].
  intros Hl. rewrite (Hl l) by set_solver. done.
Qed.

(** ** [New] and the empty document *)

Section New_file.
Context {DB cell : Type} `{!Codec DB cell}.

(** When the value decoded from the empty document encodes to the empty
    document, the [Write] inside [New] finds no change: [New] returns its
    initial store and never calls the file system. *)
Lemma New_short_circuit name fs (h : heap cell) db0 h0 :
  json_Unmarshal "{}" new_DB h = Ok (db0, h0) →
  json_Marshal db0 h0 = Ok "{}" →
  New name fs h = (Ok {| path := name; data := "{}"; db := new_DB |}, fs, h0).
Proof.
  intros Hdec Henc. unfold New, Write, noop, bytes_Equal. simpl.
  by rewrite Hdec, Henc.
Qed.

(** Otherwise a store returned by [New] has its bytes in the file. *)
Lemma New_creates_file name fs (h : heap cell) db0 h0 b p fs' h' :
  json_Unmarshal "{}" new_DB h = Ok (db0, h0) →
  json_Marshal db0 h0 = Ok b →
  b ≠ "{}" →
  New name fs h = (Ok p, fs', h') →
  data p = b ∧ os_ReadFile name fs' = Ok b ∧
  json_Unmarshal b new_DB h0 = Ok (db p, h').
Proof.
  intros Hdec Henc Hne (Hw & _ & Hfile)%New_Ok_inv.
  destruct (Write_success_inv _ _ _ _ _ _ _ Hw)
    as (d0 & g0 & d1 & g1 & Hdec' & Hfn & Henc' & Hcase).
  simpl in Hdec'. rewrite Hdec in Hdec'. unfold noop in Hfn. simplify_eq.
  rewrite Henc in Henc'. simplify_eq.
  destruct Hcase as [(-> & _ & _)|(_ & _ & Hd)]; [done|].
  destruct Hfile as [[Hp _]|[_ Hf]]; [|done].
  apply (f_equal data) in Hp. done.
Qed.

(** And [New] on the path of a directory fails. *)
Lemma New_on_directory name fs (h : heap cell) db0 h0 b w :
  json_Unmarshal "{}" new_DB h = Ok (db0, h0) →
  json_Marshal db0 h0 = Ok b →
  b ≠ "{}" →
  nodes fs !! name = Some (Dir w) →
  ∃ err, (New name fs h).1.1 = Err err.
Proof.
  intros Hdec Henc Hne Hdir.
  destruct (New name fs h) as [[[p|err] fs'] h'] eqn:Hn; [|by eexists].
  exfalso. apply New_Ok_inv in Hn as (Hw & _ & _).
  unfold Write, noop, bytes_Equal in Hw. cbn [path data db] in Hw.
  rewrite Hdec, Henc, bool_decide_eq_false_2 in Hw by done.
  destruct (os_CreateTemp _ _ fs) as [[f fs1]|err] eqn:Ht; [|done].
  destruct (File_Write f b fs1) as [err fs2] eqn:Hfw.
  destruct (File_Close f fs2) as [err1 fs3] eqn:Hc.
  destruct (temp_file_frame _ _ _ _ _ _ _ _ _ Ht Hfw Hc) as (_ & Hsame & _).
  destruct err1, err; try done.
  unfold os_Rename in Hw. by rewrite Hsame, Hdir in Hw.
Qed.

End New_file.

(** * The scenarios, run *)

Import Scenario.

(** The empty document decodes to the zero value of [Counter]. *)
Lemma Counter_empty_document (h : gmap positive Empty_set) (v : Counter.t) h' :
  json_Unmarshal "{}" new_DB h = Ok (v, h') → v = new_DB.
Proof. intros Hd. vm_compute in Hd. by simplify_eq. Qed.

(** [TestRollbackOnProgramError]: the mutator sets [Val = 2] and returns
    [rollbackErr]. *)
Lemma Write_mutator_error_witness :
  Write one failing written ∅ = (Some rollbackErr, one, written, ∅) ∧
  errors_Is rollbackErr rollbackErr = true ∧
  ∀ (A : Type) (visit : Counter.t → gmap positive Empty_set → A),
    (Read (Write one failing written ∅).1.1.2 (look visit) ∅).1.1
      = visit (db one) ∅.
Proof.
  apply (Write_mutator_error one failing written ∅
           {| Counter.Val := 1; Counter.dirty := false |} ∅
           {| Counter.Val := 2; Counter.dirty := true |} ∅ rollbackErr);
    vm_compute; reflexivity.
Defined.

(** A full disk: the write to the temporary file fails, the temporary
    file stays behind and the target is as it was. *)
Lemma Write_durable_write_failure_witness :
  Write one (set_Val 2) full ∅
    = (Some (WrapError "JSONFileDB.Write: "
               (PathError "write" "/srv/db.json.tmp0" (Errno ENOSPC))),
       one, (Write one (set_Val 2) full ∅).1.2, ∅) ∧
  nodes (Write one (set_Val 2) full ∅).1.2 !! path one
    = nodes full !! path one.
Proof.
  apply (Write_durable_write_failure one (set_Val 2) full ∅
           {| Counter.Val := 1; Counter.dirty := false |} ∅
           {| Counter.Val := 2; Counter.dirty := true |} ∅
           (js "{'Val':2}") StepWrite
           (PathError "write" "/srv/db.json.tmp0" (Errno ENOSPC))
           (Write one (set_Val 2) full ∅).1.2).
  - vm_compute. reflexivity.
  - reflexivity.
  - vm_compute. reflexivity.
  - vm_compute. discriminate.
  - eapply fails_write; vm_compute; reflexivity.
Defined.

(** [TestFileError]: the directory is read-only, the temporary file
    cannot be created, the error is of the permission class and the store
    still holds [Val = 1]. *)
Example TestFileError :
  Write one (set_Val 2) read_only ∅
    = (Some (WrapError "JSONFileDB.Write: temp: "
               (PathError "open" "/srv/db.json.tmp0" (Errno EACCES))),
       one, read_only, ∅) ∧
  errors_Is (WrapError "JSONFileDB.Write: temp: "
               (PathError "open" "/srv/db.json.tmp0" (Errno EACCES)))
            ErrPermission = true.
Proof. split; vm_compute; reflexivity. Qed.

(** C2, against the claim: on a full disk the write fails, with a failing
    close the close fails, and [Write] puts the same text in front of
    both errors: the text does not tell the two steps apart. *)
Lemma write_and_close_failures_share_context :
  ∃ ctx e1 e2 fs1 fs2,
    durable_write_fails db_json (js "{'Val':2}") full StepWrite e1 fs1 ∧
    (Write one (set_Val 2) full ∅).1.1.1 = Some (WrapError ctx e1) ∧
    durable_write_fails db_json (js "{'Val':2}") failing_close StepClose e2 fs2 ∧
    (Write one (set_Val 2) failing_close ∅).1.1.1 = Some (WrapError ctx e2).
Proof.
  exists "JSONFileDB.Write: ",
         (PathError "write" "/srv/db.json.tmp0" (Errno ENOSPC)),
         (PathError "close" "/srv/db.json.tmp0" (Errno EIO)).
  eexists _, _. split_and!.
  - eapply fails_write; vm_compute; reflexivity.
  - vm_compute. reflexivity.
  - eapply fails_close; vm_compute; reflexivity.
  - vm_compute. reflexivity.
Qed.

(** C3, against the claim: [Load] keeps the bytes of the file as they
    are, and a file written by hand is not the encoding of its value. *)
Lemma loaded_bytes_are_not_the_encoding :
  Load db_json edited ∅ = (Ok loaded, ∅) ∧
  reachable Scenario2.no_refs loaded ∅ ∧
  data loaded = js "{'Val': 1}" ∧
  json_Marshal (db loaded) ∅ = Ok (js "{'Val':1}") ∧
  (bytes_encode_value loaded ∅ → False).
Proof.
  assert (Load db_json edited ∅ = (Ok loaded, ∅)) as Hl
    by (vm_compute; reflexivity).
  split_and!; [done| by eapply reachable_Load |reflexivity|reflexivity|].
  unfold bytes_encode_value. vm_compute. discriminate.
Qed.

(** The run of [TestNoAlias]: [New], a [Write] that stores the caller's
    slice, the caller's [someVals[0] = 10], and a [Read]. *)
Lemma reachable_value_decodes_bytes_witness :
  value_decodes_bytes Series.refs
    (Write no_vals capture series_disk caller_heap).1.1.2
    (<[1%positive := [10; 2; 3]%Z]>
       (Write no_vals capture series_disk caller_heap).2).
Proof.
  assert (Series.refs (db (Write no_vals capture series_disk caller_heap).1.1.2)
          = {[ 2%positive ]}) as Hrefs by (vm_compute; reflexivity).
  apply (reachable_value_decodes_bytes Series.refs _ _
           Series_empty_document Series_decode_law).
  apply (reachable_Read Series.refs
           (Write no_vals capture series_disk caller_heap).1.1.2
           (<[1%positive := [10; 2; 3]%Z]>
              (Write no_vals capture series_disk caller_heap).2)
           _ (look Series.elems) (Some [1; 2; 3]%Z)).
  - apply (reachable_between Series.refs _
             (Write no_vals capture series_disk caller_heap).2).
    + apply (reachable_Write Series.refs no_vals caller_heap capture
               series_disk None _
               (Write no_vals capture series_disk caller_heap).1.2).
      * apply (reachable_New Series.refs db_json (disk []) caller_heap no_vals
                 (New (DB:=Series.t) db_json (disk []) caller_heap).1.2).
        vm_compute. reflexivity.
      * intros db0 h0 _ l Hl. by apply not_elem_of_empty in Hl.
      * vm_compute. reflexivity.
    + intros l Hl. rewrite Hrefs in Hl.
      apply elem_of_singleton in Hl as ->. vm_compute. reflexivity.
  - split; [reflexivity|]. intros l _. reflexivity.
  - vm_compute. reflexivity.
Defined.

(** The visitor of [Read] holds the pointer of the store: one that
    assigns through it leaves a value that the bytes do not decode to. *)
Example Read_visitor_can_assign :
  (Read loaded Scenario2.overwrite ∅).1.2
    = {| path := db_json; data := js "{'Val': 1}";
         db := {| Counter.Val := 7; Counter.dirty := false |} |} ∧
  (value_decodes_bytes Scenario2.no_refs
     (Read loaded Scenario2.overwrite ∅).1.2 ∅ → False).
Proof.
  split; [reflexivity|].
  intros (h0 & h1 & Hd & _). vm_compute in Hd. discriminate.
Qed.

(** C4, against the claim: a mutator that changes nothing, on the store
    loaded from the file written by hand, makes [Write] replace the file:
    other content, a later modification time. *)
Lemma noop_Write_rewrites_edited_file :
  Load db_json edited ∅ = (Ok loaded, ∅) ∧
  (Write loaded noop edited ∅).1.1.1 = None ∧
  nodes edited !! db_json = Some (File (js "{'Val': 1}") 0) ∧
  nodes (Write loaded noop edited ∅).1.2 !! db_json
    = Some (File (js "{'Val':1}") 2).
Proof. split_and!; vm_compute; reflexivity. Qed.

Lemma Write_same_bytes_no_io_witness :
  Write one noop written ∅ = (None, one, written, ∅).
Proof.
  apply (Write_same_bytes_no_io one noop written ∅
           (db one) ∅ (db one) ∅); vm_compute; reflexivity.
Defined.

(** C5, against the claim: the field [dirty] is not in the file, so the
    value loaded again is not the value that was set. *)
Lemma round_trip_drops_unexported_field :
  (New db_json (disk []) ∅).1.1 = Ok zero ∧
  (Write zero (set_to {| Counter.Val := 5; Counter.dirty := true |})
         (New (DB:=Counter.t) db_json (disk []) ∅).1.2 ∅).1.1.1 = None ∧
  (Load db_json
        (Write zero (set_to {| Counter.Val := 5; Counter.dirty := true |})
               (New (DB:=Counter.t) db_json (disk []) ∅).1.2 ∅).1.2 ∅).1
    = Ok {| path := db_json; data := js "{'Val':5}";
            db := {| Counter.Val := 5; Counter.dirty := false |} |} ∧
  {| Counter.Val := 5; Counter.dirty := false |}
    ≠ {| Counter.Val := 5; Counter.dirty := true |}.
Proof. split_and!; [vm_compute; reflexivity..|discriminate]. Qed.

(** As in [TestBasic]: the value set has a slice, whose elements are in
    the caller's heap; the store loaded again has them in a new array. *)
Lemma New_Write_Load_round_trip_witness :
  ∃ p3 hL',
    Load db_json
         (Write no_vals (set_to {| Series.Vals := Some someVals |})
                (New (DB:=Series.t) db_json (disk []) caller_heap).1.2
                caller_heap).1.2 ∅
      = (Ok p3, hL') ∧
    Series.elems (db p3) hL'
      = Series.elems {| Series.Vals := Some someVals |} caller_heap ∧
    (Read p3 (look Series.elems) hL').1.1
      = Series.elems {| Series.Vals := Some someVals |} caller_heap.
Proof.
  apply (New_Write_Load_round_trip Series.elems db_json (disk []) caller_heap
           no_vals
           (New (DB:=Series.t) db_json (disk []) caller_heap).1.2 caller_heap
           {| Series.Vals := None |} caller_heap
           {| Series.Vals := Some someVals |}
           (Write no_vals (set_to {| Series.Vals := Some someVals |})
                  (New (DB:=Series.t) db_json (disk []) caller_heap).1.2
                  caller_heap).1.1.2
           _
           (Write no_vals (set_to {| Series.Vals := Some someVals |})
                  (New (DB:=Series.t) db_json (disk []) caller_heap).1.2
                  caller_heap).2
           ∅).
  - vm_compute. reflexivity.
  - vm_compute. reflexivity.
  - vm_compute. reflexivity.
  - left. vm_compute. discriminate.
  - intros b Hm. vm_compute in Hm. injection Hm as <-.
    eexists _, _. split; vm_compute; reflexivity.
Defined.

Example round_trip_slice :
  Series.elems {| Series.Vals := Some someVals |} caller_heap
    = Some [1; 2; 3]%Z.
Proof. reflexivity. Qed.

(** [TestNoAlias]: the mutator stores the caller's slice in the struct;
    the store ends up with a slice over a new array. *)
Lemma Write_no_alias_witness :
  Series.refs (db (Write no_vals capture series_disk caller_heap).1.1.2)
    ## {[ 1%positive ]} ∧
  ∀ (A : Type) (visit : Series.t → gmap positive (list Z) → A),
    (∀ v ha hb, (∀ l, l ∈ Series.refs v → ha !! l = hb !! l) →
                visit v ha = visit v hb) →
    ∀ h'' : gmap positive (list Z),
      (∀ l, l ∉ ({[ 1%positive ]} : gset positive) →
            h'' !! l = (Write no_vals capture series_disk caller_heap).2 !! l) →
      (Read (Write no_vals capture series_disk caller_heap).1.1.2
            (look visit) h'').1.1
        = (Read (Write no_vals capture series_disk caller_heap).1.1.2
                (look visit)
                (Write no_vals capture series_disk caller_heap).2).1.1.
Proof.
  apply (Write_no_alias Series.refs Series_decode_fresh
           no_vals capture series_disk caller_heap
           {| Series.Vals := None |} caller_heap
           {| Series.Vals := Some someVals |} caller_heap
           _ (Write no_vals capture series_disk caller_heap).1.2 _ {[ 1%positive ]}).
  - vm_compute. reflexivity.
  - reflexivity.
  - unfold caller_heap. rewrite dom_singleton_L. done.
  - vm_compute. set_solver.
  - vm_compute. reflexivity.
Defined.

(** The test itself: [someVals[0] = 10] after the [Write], and the [Read]
    still sees 1, 2, 3. *)
Example TestNoAlias :
  let '(err, p, _, h) := Write no_vals capture series_disk caller_heap in
  err = None ∧
  (Read p (look Series.elems) h).1.1 = Some [1; 2; 3]%Z ∧
  Series.Vals (db p) = Some (2%positive, 3%nat) ∧
  (Read p (look Series.elems) (<[1%positive := [10; 2; 3]%Z]> h)).1.1
    = Some [1; 2; 3]%Z.
Proof. vm_compute. done. Qed.

(** Why [Write] decodes into a new struct: decoding into the struct the
    mutator worked on would fill the caller's array. *)
Example decode_into_used_struct :
  json_Unmarshal (js "{'Vals':[4,5,6]}") {| Series.Vals := Some someVals |}
                 caller_heap
    = Ok ({| Series.Vals := Some someVals |},
          {[ 1%positive := [4; 5; 6]%Z ]}).
Proof. vm_compute. reflexivity. Qed.



(** The error of [Load] for a missing file is found by [errors.Is], as the
    test checks it, and not by [os.IsNotExist], which does not look under
    the prefix that [Load] puts in front. *)
Remark Load_not_found_os_IsNotExist :
  (Load (DB:=Counter.t) db_json (disk []) ∅).1
    = Err (WrapError "JSONFileDB.Load: "
             (PathError "open" db_json (Errno ENOENT))) ∧
  errors_Is (WrapError "JSONFileDB.Load: "
               (PathError "open" db_json (Errno ENOENT))) ErrNotExist = true ∧
  os_IsNotExist (WrapError "JSONFileDB.Load: "
                   (PathError "open" db_json (Errno ENOENT))) = false ∧
  os_IsNotExist (PathError "open" db_json (Errno ENOENT)) = true.
Proof. split_and!; vm_compute; reflexivity. Qed.

(** C8, on [struct{}]: [New] succeeds and there is no file. *)
Theorem New_Blank_writes_no_file :
  New (DB:=unit) db_json (disk []) ∅
    = (Ok {| path := db_json; data := "{}"; db := tt |}, disk [], ∅) ∧
  nodes (disk []) !! db_json = None ∧
  os_ReadFile db_json (disk [])
    = Err (PathError "open" db_json (Errno ENOENT)).
Proof. split_and!; vm_compute; reflexivity. Qed.

(** C9, on [struct{}]: [New] on the path of a directory succeeds. *)
Theorem New_Blank_on_directory :
  nodes (disk []) !! "/srv" = Some (Dir true) ∧
  New (DB:=unit) "/srv" (disk []) ∅
    = (Ok {| path := "/srv"; data := "{}"; db := tt |}, disk [], ∅).
Proof. split_and!; vm_compute; reflexivity. Qed.

(** [TestBadNew], on a type whose zero value does not encode to the empty
    document: the rename onto the directory is refused. *)
Example TestBadNew :
  (New (DB:=Counter.t) "/srv" (disk []) ∅).1.1
    = Err (WrapError "JSONFileDB.New: "
             (WrapError "JSONFileDB.Write: rename: "
                (LinkError "rename" "/srv.tmp0" "/srv" (Errno EEXIST)))) ∧
  errors_Is (WrapError "JSONFileDB.New: "
               (WrapError "JSONFileDB.Write: rename: "
                  (LinkError "rename" "/srv.tmp0" "/srv" (Errno EEXIST))))
            ErrExist = true.
Proof. split; vm_compute; reflexivity. Qed.

(** [New] for [Counter]: the file holds the encoding of the zero value. *)
Example New_Counter_file :
  (New db_json (disk []) ∅).1.1 = Ok zero ∧
  os_ReadFile db_json (New (DB:=Counter.t) db_json (disk []) ∅).1.2
    = Ok (js "{'Val':0}").
Proof. split; vm_compute; reflexivity. Qed.

(** A [Write] that sets [Val = 2] and the unexported [dirty]: the store
    keeps what the bytes decode to. *)
Lemma Write_commits_decoded_witness :
  json_Unmarshal (js "{'Val':2}") new_DB ∅
    = Ok (db (Write one (set_Val 2) written ∅).1.1.2, ∅) ∧
  data (Write one (set_Val 2) written ∅).1.1.2 = js "{'Val':2}".
Proof.
  apply (Write_commits_decoded one (set_Val 2) written ∅
           (db one) ∅ {| Counter.Val := 2; Counter.dirty := true |} ∅
           (js "{'Val':2}") _ (Write one (set_Val 2) written ∅).1.2 ∅).
  - vm_compute. reflexivity.
  - reflexivity.
  - vm_compute. reflexivity.
  - vm_compute. discriminate.
  - vm_compute. reflexivity.
Defined.

Example Write_drops_unexported_field :
  db (Write one (set_Val 2) written ∅).1.1.2
    = {| Counter.Val := 2; Counter.dirty := false |}.
Proof. vm_compute. reflexivity. Qed.

(** * More properties of the code *)

(** [errors.Is] looks through the text that [fmt.Errorf] puts in front. *)
Lemma errors_Is_WrapError msg err target :
  errors_Is err target = true → errors_Is (WrapError msg err) target = true.
Proof. intros His. cbn [errors_Is]. rewrite His. apply orb_true_r. Qed.

Section Write_outcomes.
Context {DB cell : Type} `{!Codec DB cell}.
Implicit Types (p : JSONFileDB DB) (fn : mutator DB cell) (fs : filesys).

(** X1: whatever makes [Write] return an error (the stored bytes, the
    mutator, the encoder, any file system call, the decoding after the
    rename), the store is the one before the call and a [Read] sees the
    old value. *)
Theorem Write_failure_rolls_back p fn fs h err p' fs' h' :
  Write p fn fs h = (Some err, p', fs', h') →
  p' = p ∧
  ∀ (A : Type) (visit : DB → heap cell → A),
    (Read p' (look visit) h').1.1 = visit (db p) h'.
Proof.
  intros Hw. apply Write_error_keeps_store in Hw as ->. done.
Qed.

(** X2: [Write] touches the file system only when the mutator succeeded
    and the bytes encoded after it differ from the bytes of the store. *)
Theorem Write_io_needs_new_bytes p fn fs h r p' fs' h' :
  Write p fn fs h = (r, p', fs', h') →
  fs' ≠ fs →
  ∃ db0 h0 db1 h1 data',
    json_Unmarshal (data p) new_DB h = Ok (db0, h0) ∧
    fn db0 h0 = (db1, h1, None) ∧
    json_Marshal db1 h1 = Ok data' ∧
    data' ≠ data p.
Proof.
  unfold Write, bytes_Equal. intros Hw Hfs.
  repeat case_match; simplify_eq; try done;
    match goal with
    | Hb : bool_decide _ = false |- _ => apply bool_decide_eq_false_1 in Hb
    end;
    by do 5 eexists.
Qed.

(** Where an error of [Write] comes from. *)
Lemma Write_error_cases p fn fs h err p' fs' h' :
  Write p fn fs h = (Some err, p', fs', h') →
  (∃ db0 h0 db1 h1,
     json_Unmarshal (data p) new_DB h = Ok (db0, h0) ∧
     fn db0 h0 = (db1, h1, Some err)) ∨
  (∃ ctx cause,
     err = WrapError ctx cause ∧ ctx ∈ Write_contexts ∧
     ∀ target, errors_Is cause target = true → errors_Is err target = true).
Proof.
  unfold Write, Write_contexts. intros Hw.
  repeat case_match; simplify_eq;
    first [ left; by do 4 eexists
          | right; do 2 eexists;
            split_and!; [done|set_solver|apply errors_Is_WrapError] ].
Qed.

(** X3: an error returned by [Write] is the mutator's own error, as it
    is, or an error behind one of the three texts of [Write]; in the
    second case [errors.Is] finds in it whatever it finds in the cause. *)
Theorem Write_error_origin p fn fs h err p' fs' h' :
  Write p fn fs h = (Some err, p', fs', h') →
  (∃ db0 h0 db1 h1,
     json_Unmarshal (data p) new_DB h = Ok (db0, h0) ∧
     fn db0 h0 = (db1, h1, Some err)) ∨
  (∃ ctx cause,
     err = WrapError ctx cause ∧ ctx ∈ Write_contexts ∧
     ∀ target, errors_Is cause target = true → errors_Is err target = true).
Proof. apply Write_error_cases. Qed.

End Write_outcomes.

(** ** What [Write] does to the directory *)

(** After the temporary file has been created, written and closed, the
    entries are those from before and the temporary file, under a name
    that was free. *)
Lemma temp_file_nodes dir pattern data' fs f fs1 err fs2 err1 fs3 :
  os_CreateTemp dir pattern fs = Ok (f, fs1) →
  File_Write f data' fs1 = (err, fs2) →
  File_Close f fs2 = (err1, fs3) →
  nodes fs !! Name f = None ∧
  ∃ c t, nodes fs3 = <[Name f := File c t]> (nodes fs).
Proof.
  unfold os_CreateTemp, File_Write, File_Close.
  intros (r & _ & Hfree & Hn1 & _)%createTemp_loop_Ok Hw Hc.
  split; [done|].
  assert (nodes fs3 = nodes fs2) as ->.
  { destruct (close_fault fs2); by simplify_eq. }
  simplify_eq. simpl. rewrite Hn1, insert_insert_eq. by eexists _, _.
Qed.

Lemma os_Rename_Ok oldpath newpath fs fs' :
  os_Rename oldpath newpath fs = Ok fs' →
  ∃ n, nodes fs !! oldpath = Some n ∧
       nodes fs' = <[newpath := n]> (delete oldpath (nodes fs)).
Proof.
  unfold os_Rename. intros Hr. repeat case_match; simplify_eq; by eexists.
Qed.

Section Directory.
Context {DB cell : Type} `{!Codec DB cell}.
Implicit Types (p : JSONFileDB DB) (fn : mutator DB cell) (fs : filesys).

(** The file systems that [Write] can leave: the one it found, the one
    with the temporary file, the one after the rename. *)
Lemma Write_filesys_cases p fn fs h r p' fs' h' :
  Write p fn fs h = (r, p', fs', h') →
  (fs' = fs ∧ p' = p) ∨
  ∃ f fs1 data' err fs2 err1 fs3,
    os_CreateTemp (filepath_Dir (path p)) (filepath_Base (path p) ++ ".tmp") fs
      = Ok (f, fs1) ∧
    File_Write f data' fs1 = (err, fs2) ∧
    File_Close f fs2 = (err1, fs3) ∧
    ((fs' = fs3 ∧ p' = p ∧ is_Some r) ∨
     (err = None ∧ err1 = None ∧ os_Rename (Name f) (path p) fs3 = Ok fs' ∧
      (r = None → data p' = data')  ∧
      (is_Some r → p' = p ∧
         ∃ h1 e, json_Unmarshal data' new_DB h1 = Err e ∧
                 r = Some (WrapError "JSONFileDB.Write: " e)))).
Proof.
  unfold Write, bytes_Equal. intros Hw.
  repeat case_match; simplify_eq; try (by left); right;
    do 7 eexists; (split_and!; [done..|]);
    first [ left; by split_and!
          | right; split_and!; [done..| |]; [done|];
            intros _; split; [done|]; by do 2 eexists
          | right; split_and!; [done..| |]; [done|]; by intros [] ].
Qed.

(** X4: whatever its outcome, [Write] leaves every entry that exists
    under another path than its own as it is. *)
Theorem Write_leaves_other_files p fn fs h r p' fs' h' q n :
  Write p fn fs h = (r, p', fs', h') →
  q ≠ path p →
  nodes fs !! q = Some n →
  nodes fs' !! q = Some n.
Proof.
  intros Hw Hq Hn.
  destruct (Write_filesys_cases _ _ _ _ _ _ _ _ Hw)
    as [[-> _]|(f & fs1 & data' & err & fs2 & err1 & fs3 & Ht & Hfw & Hc & Hcase)];
    [done|].
  destruct (temp_file_nodes _ _ _ _ _ _ _ _ _ _ Ht Hfw Hc)
    as (Hfree & c & t & Hn3).
  assert (Name f ≠ q) as Hne by (intros <-; congruence).
  destruct Hcase as [(-> & _)|(_ & _ & Hr & _)].
  - by rewrite Hn3, lookup_insert_ne.
  - apply os_Rename_Ok in Hr as (n' & _ & ->).
    by rewrite lookup_insert_ne, lookup_delete_ne, Hn3, lookup_insert_ne.
Qed.

(** X5: after a [Write] that commits, the directory has the entries from
    before and the target, nothing else (the temporary file is gone), and
    the target holds the bytes of the store. *)
Theorem Write_commit_directory p fn fs h p' fs' h' :
  Write p fn fs h = (None, p', fs', h') →
  data p' ≠ data p →
  dom (nodes fs') = dom (nodes fs) ∪ {[ path p ]} ∧
  os_ReadFile (path p) fs' = Ok (data p').
Proof.
  intros Hw Hne. split; [|by eapply Write_commit_file].
  destruct (Write_filesys_cases _ _ _ _ _ _ _ _ Hw)
    as [[_ ->]|(f & fs1 & data' & err & fs2 & err1 & fs3 & Ht & Hfw & Hc & Hcase)];
    [done|].
  destruct (temp_file_nodes _ _ _ _ _ _ _ _ _ _ Ht Hfw Hc)
    as (Hfree & c & t & Hn3).
  destruct Hcase as [(_ & _ & Hs)|(_ & _ & Hr & _)]; [by destruct Hs|].
  apply os_Rename_Ok in Hr as (n' & _ & ->).
  rewrite dom_insert_L, dom_delete_L, Hn3, dom_insert_L.
  apply not_elem_of_dom in Hfree. apply set_eq. intros x.
  rewrite !elem_of_union, elem_of_difference, elem_of_union,
    !elem_of_singleton.
  destruct (decide (x = Name f)) as [->|]; tauto.
Qed.

End Directory.

Lemma os_ReadFile_Ok name fs c :
  os_ReadFile name fs = Ok c ↔ ∃ t, nodes fs !! name = Some (File c t).
Proof.
  unfold os_ReadFile. split.
  - intros Hr. repeat case_match; simplify_eq. by eexists.
  - by intros [t ->].
Qed.

Section After_the_temporary_file.
Context {DB cell : Type} `{!Codec DB cell}.
Implicit Types (p : JSONFileDB DB) (fn : mutator DB cell) (fs : filesys).

(** X6: [Write] never removes its temporary file. When the write, the
    close or the rename fails, the file system that [Write] leaves has
    the temporary file in it, under a name that was free before. *)
Theorem Write_failure_leaves_temp_file
    p fn fs h db0 h0 db1 h1 data' s err fs' :
  json_Unmarshal (data p) new_DB h = Ok (db0, h0) →
  fn db0 h0 = (db1, h1, None) →
  json_Marshal db1 h1 = Ok data' →
  data' ≠ data p →
  durable_write_fails (path p) data' fs s err fs' →
  s ≠ StepTemp →
  (Write p fn fs h).1.2 = fs' ∧
  ∃ tmp c t, nodes fs !! tmp = None ∧ nodes fs' !! tmp = Some (File c t).
Proof.
  intros Hdec Hfn Henc Hne Hfail Hs. unfold Write, bytes_Equal.
  rewrite Hdec, Hfn, Henc, bool_decide_eq_false_2 by done.
  destruct Hfail as [err Ht|f fs1 err fs2 err1 fs3 Ht Hw Hc
                    |f fs1 fs2 err fs3 Ht Hw Hc|f fs1 fs2 fs3 err Ht Hw Hc Hr];
    [done|..]; rewrite Ht, Hw, Hc; try rewrite Hr;
    (split; [first [done | by destruct err1]|]);
    destruct (temp_file_nodes _ _ _ _ _ _ _ _ _ _ Ht Hw Hc)
      as (Hfree & c & t & Hn3);
    exists (Name f), c, t; by rewrite Hn3, lookup_insert_eq.
Qed.

(** X7: when the bytes just written do not decode, [Write] returns the
    decoder's error after the rename: the target file holds the new
    bytes, the store still holds the old bytes and the old value. *)
Theorem Write_decode_failure_after_rename
    p fn fs h db0 h0 db1 h1 data' f fs1 fs2 fs3 fs4 err :
  json_Unmarshal (data p) new_DB h = Ok (db0, h0) →
  fn db0 h0 = (db1, h1, None) →
  json_Marshal db1 h1 = Ok data' →
  data' ≠ data p →
  os_CreateTemp (filepath_Dir (path p)) (filepath_Base (path p) ++ ".tmp") fs
    = Ok (f, fs1) →
  File_Write f data' fs1 = (None, fs2) →
  File_Close f fs2 = (None, fs3) →
  os_Rename (Name f) (path p) fs3 = Ok fs4 →
  json_Unmarshal data' new_DB h1 = Err err →
  Write p fn fs h = (Some (WrapError "JSONFileDB.Write: " err), p, fs4, h1) ∧
  os_ReadFile (path p) fs4 = Ok data'.
Proof.
  intros Hdec Hfn Henc Hne Ht Hw Hc Hr Hd.
  split; [|by eapply durable_write_Ok_file].
  unfold Write, bytes_Equal.
  by rewrite Hdec, Hfn, Henc, bool_decide_eq_false_2, Ht, Hw, Hc, Hr, Hd.
Qed.

(** X8: a [Write] on a store whose file holds its bytes leaves a store
    whose file holds its bytes, unless it returns an error of
    [encoding/json] behind its general text (the case of X7); a [Load] of
    the path then gets those bytes. *)
Theorem Write_keeps_file_in_sync p fn fs h r p' fs' h' :
  os_ReadFile (path p) fs = Ok (data p) →
  Write p fn fs h = (r, p', fs', h') →
  (∀ e, r ≠ Some (WrapError "JSONFileDB.Write: " (JSONError e))) →
  os_ReadFile (path p') fs' = Ok (data p') ∧
  ∀ hL v hL',
    json_Unmarshal (data p') new_DB hL = Ok (v, hL') →
    Load (path p') fs' hL
      = (Ok {| path := path p'; data := data p'; db := v |}, hL').
Proof.
  intros Hsync Hw Hr.
  assert (os_ReadFile (path p') fs' = Ok (data p')) as Hfile.
  { destruct (Write_filesys_cases _ _ _ _ _ _ _ _ Hw)
      as [[-> ->]|(f & fs1 & data' & err & fs2 & err1 & fs3
                   & Ht & Hfw & Hc & Hcase)]; [done|].
    destruct Hcase as [(-> & -> & _)|(-> & -> & Hren & Hok & Hbad)].
    - destruct (temp_file_frame _ _ _ _ _ _ _ _ _ Ht Hfw Hc) as (_ & Hsame & _).
      apply os_ReadFile_Ok in Hsync as [t Hnode]. apply os_ReadFile_Ok.
      exists t. by rewrite Hsame.
    - destruct r as [e|].
      + destruct Hbad as (_ & h1 & e' & Hd & [= ->]); [done|].
        unfold json_Unmarshal in Hd. destruct (decode _ _ _); simplify_eq.
        by destruct (Hr j).
      + rewrite (Hok eq_refl).
        assert (path p' = path p) as ->.
        { destruct (Write_success_inv _ _ _ _ _ _ _ Hw)
            as (? & ? & ? & ? & _ & _ & _ & [(-> & _)|(_ & ? & _)]); done. }
        by eapply durable_write_Ok_file. }
  split; [done|].
  intros hL v hL' Hd. unfold Load. by rewrite Hfile, Hd.
Qed.

(** X9: setting the state a second time to a value whose encoding does
    not depend on the heap is a [Write] without any I/O. *)
Theorem Write_same_value_again p fs h v p' fs' h' d g :
  Write p (set_to v) fs h = (None, p', fs', h') →
  (∀ ha hb, json_Marshal v ha = json_Marshal v hb) →
  json_Unmarshal (data p') new_DB h' = Ok (d, g) →
  Write p' (set_to v) fs' h' = (None, p', fs', g).
Proof.
  intros Hw Hpure Hd.
  destruct (Write_success_inv _ _ _ _ _ _ _ Hw)
    as (db0 & h0 & db1 & h1 & _ & Hset & Henc & _).
  unfold set_to in Hset. simplify_eq.
  unfold Write, set_to, bytes_Equal.
  by rewrite Hd, (Hpure g h1), Henc, bool_decide_eq_true_2.
Qed.

End After_the_temporary_file.

(** ** The directory of the temporary file *)

Lemma string_app_assoc (a b c : string) : (a ++ b) ++ c = a ++ (b ++ c).
Proof.
  induction a as [|x a IH]; [done|].
  change (String x ((a ++ b) ++ c) = String x (a ++ (b ++ c))).
  by rewrite IH.
Qed.

Lemma has_slash_app (a b : string) :
  has_slash (a ++ b) = has_slash a || has_slash b.
Proof.
  induction a as [|x a IH]; [done|].
  change (bool_decide (x = "/"%char) || has_slash (a ++ b)
          = bool_decide (x = "/"%char) || has_slash a || has_slash b).
  by rewrite IH, orb_assoc.
Qed.

Lemma pretty_N_go_no_slash (x : N) (s : string) :
  has_slash (pretty_N_go x s) = has_slash s.
Proof.
  revert s. induction (N.lt_wf_0 x) as [x _ IH]. intros s.
  destruct (decide (x = 0)%N) as [->|Hx]; [by rewrite pretty_N_go_0|].
  rewrite pretty_N_go_step, IH by (try apply N.div_lt; lia).
  simpl. unfold pretty_N_char. by repeat case_match.
Qed.

Lemma pretty_nat_no_slash (n : nat) : has_slash (pretty n) = false.
Proof.
  unfold pretty, pretty_nat, pretty, pretty_N.
  case_decide; [done|]. by rewrite pretty_N_go_no_slash.
Qed.

Lemma split_path_no_slash (s : string) :
  has_slash s = false → split_path s = (None, s).
Proof.
  induction s as [|c s IH]; simpl; [done|].
  intros [Hc Hs]%orb_false_iff. by rewrite (IH Hs), Hc.
Qed.

Lemma split_path_app (d t : string) :
  has_slash t = false → split_path (d ++ "/" ++ t) = (Some d, t).
Proof.
  intros Ht. induction d as [|c d IH].
  - change (split_path (String "/"%char t) = (Some "", t)).
    simpl. by rewrite (split_path_no_slash t Ht).
  - change (split_path (String c (d ++ "/" ++ t)) = (Some (String c d), t)).
    simpl. rewrite IH. by case_bool_decide.
Qed.

Lemma split_path_snd_no_slash (s : string) :
  has_slash (snd (split_path s)) = false.
Proof.
  induction s as [|c s IH]; simpl; [done|].
  destruct (split_path s) as [[d|] b]; case_bool_decide as Hc; simpl in *;
    try done.
  by rewrite IH, bool_decide_eq_false_2.
Qed.

Lemma joinPath_plain (dir name : string) :
  ends_with_slash dir = false → joinPath dir name = dir ++ "/" ++ name.
Proof. unfold joinPath. by intros ->. Qed.

(** For a clean path, the names that [Write] hands to [os.CreateTemp]
    are in the directory of the path. *)
Lemma temp_name_Dir (path : string) (rnd : nat) :
  clean_path path →
  filepath_Dir
    (joinPath (filepath_Dir path) (filepath_Base path ++ ".tmp") ++ pretty rnd)
    = filepath_Dir path.
Proof.
  intros [Hb Hd].
  pose proof (split_path_snd_no_slash path) as Hns.
  destruct (split_path path) as [od b] eqn:Hsplit. simpl in Hb, Hd, Hns.
  destruct b as [|c b]; [done|].
  assert (filepath_Base path = String c b) as ->.
  { unfold filepath_Base. by rewrite Hsplit. }
  assert (has_slash (String c b ++ ".tmp" ++ pretty rnd) = false) as Ht.
  { by rewrite !has_slash_app, Hns, pretty_nat_no_slash. }
  assert (∀ d, filepath_Dir (d ++ "/" ++ String c b ++ ".tmp" ++ pretty rnd)
               = match d with "" => "/" | _ => d end) as Hdir.
  { intros d. unfold filepath_Dir. by rewrite (split_path_app _ _ Ht). }
  destruct od as [[|x d]|].
  - assert (filepath_Dir path = "/") as ->.
    { unfold filepath_Dir. by rewrite Hsplit. }
    change (joinPath "/" (String c b ++ ".tmp"))
      with ("" ++ "/" ++ (String c b ++ ".tmp")).
    rewrite !string_app_assoc. apply (Hdir "").
  - assert (filepath_Dir path = String x d) as ->.
    { unfold filepath_Dir. by rewrite Hsplit. }
    rewrite joinPath_plain by by apply Hd.
    rewrite !string_app_assoc. apply (Hdir (String x d)).
  - assert (filepath_Dir path = ".") as ->.
    { unfold filepath_Dir. by rewrite Hsplit. }
    rewrite joinPath_plain by done.
    rewrite !string_app_assoc. apply (Hdir ".").
Qed.

(** What [os.CreateTemp] answers, for the arguments of [Write], when the
    directory of a clean path is missing, is a file, or is read-only. *)
Lemma os_CreateTemp_refused (path : string) fs :
  clean_path path →
  nodes fs !! filepath_Dir path ≠ Some (Dir true) →
  os_CreateTemp (filepath_Dir path) (filepath_Base path ++ ".tmp") fs =
    Err (PathError "open"
           (joinPath (filepath_Dir path) (filepath_Base path ++ ".tmp")
            ++ pretty (seed fs))
           (Errno match nodes fs !! filepath_Dir path with
                  | None => ENOENT
                  | Some (File _ _) => ENOTDIR
                  | Some (Dir _) => EACCES
                  end)).
Proof.
  intros Hclean Hdir.
  set (tmp := joinPath _ _ ++ pretty (seed fs)).
  assert (filepath_Dir tmp = filepath_Dir path) as Hsib
    by by apply temp_name_Dir.
  unfold os_CreateTemp.
  destruct (100 * 100)%nat as [|tries] eqn:Htries; [discriminate Htries|].
  cbn [createTemp_loop]. fold tmp. unfold open_excl. rewrite Hsib.
  destruct (nodes fs !! filepath_Dir path) as [[c t|[]]|]; done.
Qed.

Section Directories.
Context {DB cell : Type} `{!Codec DB cell}.
Implicit Types (p : JSONFileDB DB) (fn : mutator DB cell) (fs : filesys).

(** X10: for a clean path, whatever [Write] adds to the file system is
    in the directory of its target: the target, or the temporary file
    beside it. *)
Theorem Write_creates_only_siblings p fn fs h r p' fs' h' q :
  clean_path (path p) →
  Write p fn fs h = (r, p', fs', h') →
  nodes fs !! q = None →
  is_Some (nodes fs' !! q) →
  filepath_Dir q = filepath_Dir (path p).
Proof.
  intros Hclean Hw Hq Hq'.
  destruct (Write_filesys_cases _ _ _ _ _ _ _ _ Hw)
    as [[-> _]|(f & fs1 & data' & err & fs2 & err1 & fs3 & Ht & Hfw & Hc & Hcase)].
  { rewrite Hq in Hq'. by destruct Hq'. }
  destruct (temp_file_nodes _ _ _ _ _ _ _ _ _ _ Ht Hfw Hc)
    as (_ & c & t & Hn3).
  apply createTemp_loop_Ok in Ht as (rnd & Hname & _).
  assert (filepath_Dir (Name f) = filepath_Dir (path p)) as Hsib.
  { rewrite Hname. by apply temp_name_Dir. }
  destruct Hcase as [(-> & _)|(_ & _ & Hr & _)].
  - rewrite Hn3 in Hq'. destruct (decide (q = Name f)) as [->|Hne]; [done|].
    rewrite lookup_insert_ne, Hq in Hq' by done. by destruct Hq'.
  - apply os_Rename_Ok in Hr as (n' & _ & Hn4). rewrite Hn4 in Hq'.
    destruct (decide (q = path p)) as [->|Hne]; [done|].
    rewrite lookup_insert_ne in Hq' by done.
    destruct (decide (q = Name f)) as [->|Hne']; [done|].
    rewrite lookup_delete_ne, Hn3, lookup_insert_ne, Hq in Hq' by done.
    by destruct Hq'.
Qed.

(** X11: when the directory of a clean path is read-only and there are
    new bytes to write, [Write] fails at the temporary file with an error
    that [errors.Is] recognises as [os.ErrPermission], and changes
    neither the file system nor the store. *)
Theorem Write_read_only_directory p fn fs h db0 h0 db1 h1 data' :
  clean_path (path p) →
  nodes fs !! filepath_Dir (path p) = Some (Dir false) →
  json_Unmarshal (data p) new_DB h = Ok (db0, h0) →
  fn db0 h0 = (db1, h1, None) →
  json_Marshal db1 h1 = Ok data' →
  data' ≠ data p →
  ∃ err, Write p fn fs h = (Some err, p, fs, h1) ∧
         errors_Is err ErrPermission = true.
Proof.
  intros Hclean Hdir Hdec Hfn Henc Hne.
  pose proof (os_CreateTemp_refused _ fs Hclean) as Ht.
  rewrite Hdir in Ht. specialize (Ht ltac:(done)).
  eexists. unfold Write, bytes_Equal.
  rewrite Hdec, Hfn, Henc, bool_decide_eq_false_2, Ht by done.
  split; [done|]. done.
Qed.

(** X12: [New] at a clean path whose directory does not exist, for a
    type whose decoded empty document does not encode to the empty
    document, fails with an error that [errors.Is] recognises as
    [os.ErrNotExist], and leaves the file system as it is. *)
Theorem New_missing_directory name fs (h : heap cell) db0 h0 b :
  clean_path name →
  nodes fs !! filepath_Dir name = None →
  json_Unmarshal "{}" new_DB h = Ok (db0, h0) →
  json_Marshal db0 h0 = Ok b →
  b ≠ "{}" →
  ∃ err, New name fs h = (Err err, fs, h0) ∧
         errors_Is err ErrNotExist = true.
Proof.
  intros Hclean Hdir Hdec Henc Hne.
  pose proof (os_CreateTemp_refused _ fs Hclean) as Ht.
  rewrite Hdir in Ht. specialize (Ht ltac:(done)).
  eexists. unfold New, Write, noop, bytes_Equal. cbn [path data db].
  rewrite Hdec, Henc, bool_decide_eq_false_2, Ht by done.
  split; [done|]. done.
Qed.

(** X13: an error of [New] is an error of the [Write] inside it behind
    the text of [New]; the mutator of [New] never fails, so that error
    has one of the three texts of [Write] in front, and [errors.Is]
    finds in the error of [New] whatever it finds in the cause. *)
Theorem New_error_origin name fs (h : heap cell) err fs' h' :
  New name fs h = (Err err, fs', h') →
  ∃ ctx cause,
    err = WrapError "JSONFileDB.New: " (WrapError ctx cause) ∧
    ctx ∈ Write_contexts ∧
    ∀ target, errors_Is cause target = true → errors_Is err target = true.
Proof.
  unfold New. intros Hn.
  destruct (Write _ noop fs h) as [[[[e|] q] fs1] h1] eqn:Hw; simplify_eq.
  destruct (Write_error_cases _ _ _ _ _ _ _ _ Hw)
    as [(? & ? & ? & ? & _ & [=])|(ctx & cause & -> & Hctx & His)].
  exists ctx, cause. split_and!; [done..|].
  intros target Ht. by apply errors_Is_WrapError, His.
Qed.

End Directories.

(** ** These properties on the scenarios *)

Import Scenario2.

Lemma clean_db_json : clean_path db_json.
Proof.
  split; [vm_compute; discriminate|].
  intros d Hd. vm_compute in Hd. by injection Hd as <-.
Qed.

Lemma clean_srv : clean_path "/srv".
Proof.
  split; [vm_compute; discriminate|].
  intros d Hd. vm_compute in Hd. by injection Hd as <-.
Qed.

(** An error value is recorded and the bytes written do not decode:
    the store is still the one from before. *)
Lemma Write_failure_rolls_back_witness :
  (Write journal record_error journal_disk ∅).1.1.2 = journal ∧
  ∀ (A : Type) (visit : Journal.t → gmap positive Empty_set → A),
    (Read (Write journal record_error journal_disk ∅).1.1.2 (look visit) ∅).1.1
      = visit (db journal) ∅.
Proof.
  apply (Write_failure_rolls_back journal record_error journal_disk ∅
           (WrapError "JSONFileDB.Write: "
              (JSONError (UnmarshalTypeError "object" "error")))
           _ (Write journal record_error journal_disk ∅).1.2 ∅).
  vm_compute. reflexivity.
Defined.

Lemma Write_io_needs_new_bytes_witness :
  ∃ db0 h0 db1 h1 data',
    json_Unmarshal (data one) new_DB ∅ = Ok (db0, h0) ∧
    set_Val 2 db0 h0 = (db1, h1, None) ∧
    json_Marshal db1 h1 = Ok data' ∧
    data' ≠ data one.
Proof.
  apply (Write_io_needs_new_bytes one (set_Val 2) written ∅ None
           (Write one (set_Val 2) written ∅).1.1.2
           (Write one (set_Val 2) written ∅).1.2 ∅).
  - vm_compute. reflexivity.
  - intros Hfs. apply (f_equal clock) in Hfs. vm_compute in Hfs.
    discriminate.
Defined.

Lemma Write_error_origin_witness :
  (∃ db0 h0 db1 h1,
     json_Unmarshal (data one) new_DB ∅ = Ok (db0, h0) ∧
     set_Val 2 db0 h0
       = (db1, h1,
          Some (WrapError "JSONFileDB.Write: temp: "
                  (PathError "open" "/srv/db.json.tmp0" (Errno EACCES))))) ∨
  (∃ ctx cause,
     WrapError "JSONFileDB.Write: temp: "
       (PathError "open" "/srv/db.json.tmp0" (Errno EACCES))
       = WrapError ctx cause ∧
     ctx ∈ Write_contexts ∧
     ∀ target,
       errors_Is cause target = true →
       errors_Is (WrapError "JSONFileDB.Write: temp: "
                    (PathError "open" "/srv/db.json.tmp0" (Errno EACCES)))
                 target = true).
Proof.
  apply (Write_error_origin one (set_Val 2) read_only ∅ _ one read_only ∅).
  vm_compute. reflexivity.
Defined.

Lemma Write_leaves_other_files_witness :
  nodes (Write one (set_Val 2) with_other ∅).1.2 !! other_json
    = Some (File "[]" 0).
Proof.
  apply (Write_leaves_other_files one (set_Val 2) with_other ∅
           None (Write one (set_Val 2) with_other ∅).1.1.2 _ ∅).
  - vm_compute. reflexivity.
  - vm_compute. discriminate.
  - vm_compute. reflexivity.
Defined.

Lemma Write_commit_directory_witness :
  dom (nodes (Write one (set_Val 2) written ∅).1.2)
    = dom (nodes written) ∪ {[ path one ]} ∧
  os_ReadFile (path one) (Write one (set_Val 2) written ∅).1.2
    = Ok (js "{'Val':2}").
Proof.
  apply (Write_commit_directory one (set_Val 2) written ∅
           {| path := db_json; data := js "{'Val':2}";
              db := {| Counter.Val := 2; Counter.dirty := false |} |}
           _ ∅).
  - vm_compute. reflexivity.
  - vm_compute. discriminate.
Defined.

Lemma Write_failure_leaves_temp_file_witness :
  (Write one (set_Val 2) full ∅).1.2 = (Write one (set_Val 2) full ∅).1.2 ∧
  ∃ tmp c t,
    nodes full !! tmp = None ∧
    nodes (Write one (set_Val 2) full ∅).1.2 !! tmp = Some (File c t).
Proof.
  apply (Write_failure_leaves_temp_file one (set_Val 2) full ∅
           (db one) ∅ {| Counter.Val := 2; Counter.dirty := true |} ∅
           (js "{'Val':2}") StepWrite
           (PathError "write" "/srv/db.json.tmp0" (Errno ENOSPC))).
  - vm_compute. reflexivity.
  - reflexivity.
  - vm_compute. reflexivity.
  - vm_compute. discriminate.
  - eapply fails_write; vm_compute; reflexivity.
  - discriminate.
Defined.

Lemma Write_decode_failure_after_rename_witness :
  Write journal record_error journal_disk ∅
    = (Some (WrapError "JSONFileDB.Write: "
               (JSONError (UnmarshalTypeError "object" "error"))),
       journal, (Write journal record_error journal_disk ∅).1.2, ∅) ∧
  os_ReadFile (path journal) (Write journal record_error journal_disk ∅).1.2
    = Ok (js "{'Last':{}}").
Proof.
  eapply (Write_decode_failure_after_rename journal record_error journal_disk ∅
            (db journal) ∅ {| Journal.Last := Some "boom" |} ∅
            (js "{'Last':{}}")).
  - vm_compute. reflexivity.
  - reflexivity.
  - vm_compute. reflexivity.
  - vm_compute. discriminate.
  - vm_compute. reflexivity.
  - vm_compute. reflexivity.
  - vm_compute. reflexivity.
  - vm_compute. reflexivity.
  - vm_compute. reflexivity.
Defined.

Lemma Write_keeps_file_in_sync_witness :
  os_ReadFile (path (Write one (set_Val 2) written ∅).1.1.2)
              (Write one (set_Val 2) written ∅).1.2
    = Ok (data (Write one (set_Val 2) written ∅).1.1.2) ∧
  ∀ hL (v : Counter.t) hL',
    json_Unmarshal (data (Write one (set_Val 2) written ∅).1.1.2) new_DB hL
      = Ok (v, hL') →
    Load (path (Write one (set_Val 2) written ∅).1.1.2)
         (Write one (set_Val 2) written ∅).1.2 hL
      = (Ok {| path := path (Write one (set_Val 2) written ∅).1.1.2;
               data := data (Write one (set_Val 2) written ∅).1.1.2;
               db := v |}, hL').
Proof.
  apply (Write_keeps_file_in_sync one (set_Val 2) written ∅ None _ _ ∅).
  - vm_compute. reflexivity.
  - vm_compute. reflexivity.
  - intros e. discriminate.
Defined.

Lemma Write_same_value_again_witness :
  Write (Write one (set_to {| Counter.Val := 2; Counter.dirty := false |})
               written ∅).1.1.2
        (set_to {| Counter.Val := 2; Counter.dirty := false |})
        (Write one (set_to {| Counter.Val := 2; Counter.dirty := false |})
               written ∅).1.2 ∅
    = (None,
       (Write one (set_to {| Counter.Val := 2; Counter.dirty := false |})
              written ∅).1.1.2,
       (Write one (set_to {| Counter.Val := 2; Counter.dirty := false |})
              written ∅).1.2, ∅).
Proof.
  apply (Write_same_value_again one written ∅
           {| Counter.Val := 2; Counter.dirty := false |} _ _ ∅
           {| Counter.Val := 2; Counter.dirty := false |} ∅).
  - vm_compute. reflexivity.
  - intros ha hb. reflexivity.
  - vm_compute. reflexivity.
Defined.

Lemma Write_creates_only_siblings_witness :
  filepath_Dir "/srv/db.json.tmp0" = filepath_Dir (path one).
Proof.
  apply (Write_creates_only_siblings one (set_Val 2) full ∅
           (Write one (set_Val 2) full ∅).1.1.1
           (Write one (set_Val 2) full ∅).1.1.2
           (Write one (set_Val 2) full ∅).1.2 ∅ "/srv/db.json.tmp0").
  - apply clean_db_json.
  - vm_compute. reflexivity.
  - vm_compute. reflexivity.
  - vm_compute. by eexists.
Defined.

(** [TestFileError], through the general statement. *)
Lemma Write_read_only_directory_witness :
  ∃ err, Write one (set_Val 2) read_only ∅ = (Some err, one, read_only, ∅) ∧
         errors_Is err ErrPermission = true.
Proof.
  apply (Write_read_only_directory one (set_Val 2) read_only ∅
           (db one) ∅ {| Counter.Val := 2; Counter.dirty := true |} ∅
           (js "{'Val':2}")).
  - apply clean_db_json.
  - vm_compute. reflexivity.
  - vm_compute. reflexivity.
  - reflexivity.
  - vm_compute. reflexivity.
  - vm_compute. discriminate.
Defined.

Lemma New_missing_directory_witness :
  ∃ err, New (DB:=Counter.t) db_json no_srv ∅ = (Err err, no_srv, ∅) ∧
         errors_Is err ErrNotExist = true.
Proof.
  apply (New_missing_directory db_json no_srv ∅
           {| Counter.Val := 0; Counter.dirty := false |} ∅ (js "{'Val':0}")).
  - apply clean_db_json.
  - vm_compute. reflexivity.
  - vm_compute. reflexivity.
  - vm_compute. reflexivity.
  - vm_compute. discriminate.
Defined.

(** [TestBadNew], through the general statement. *)
Lemma New_error_origin_witness :
  ∃ ctx cause,
    WrapError "JSONFileDB.New: "
      (WrapError "JSONFileDB.Write: rename: "
         (LinkError "rename" "/srv.tmp0" "/srv" (Errno EEXIST)))
      = WrapError "JSONFileDB.New: " (WrapError ctx cause) ∧
    ctx ∈ Write_contexts ∧
    ∀ target,
      errors_Is cause target = true →
      errors_Is (WrapError "JSONFileDB.New: "
                   (WrapError "JSONFileDB.Write: rename: "
                      (LinkError "rename" "/srv.tmp0" "/srv" (Errno EEXIST))))
                target = true.
Proof.
  apply (New_error_origin (DB:=Counter.t) "/srv" (disk []) ∅ _
           (New (DB:=Counter.t) "/srv" (disk []) ∅).1.2 ∅).
  vm_compute. reflexivity.
Defined.
